(** * KennisHubAPI: a shallow embedding of [api.py]

    The client class [KennisHubAPI] wraps the HTTP API of a community
    platform.  This development embeds its validation helpers, the slug
    conversion and the operations around one HTTP exchange, and checks the
    statements of the specification against them.

    Modelling choices, all taken from the Python source:
    - a Python [str] is a [string]: a sequence of code points below 256
      (the Latin-1 block, which [str.lower] maps into itself); [input2slug],
      whose result depends on [str.lower], is embedded over all code points
      as well, in [Unicode];
    - a decoded JSON body is a [pyval]; a JSON object is a [gmap] from its
      keys, so that two dicts with the same items are equal, as in Python;
    - a call either returns or raises: [result]; an operation that talks to
      the network runs in [io], which threads the list of requests issued
      so far and asks the transport for the response. *)

From Stdlib Require Import ZArith String Ascii List Bool Lia.
From Stdlib Require Import Floats.SpecFloat DecimalString.
From stdpp Require Import gmap strings.
Import ListNotations.
Local Open Scope string_scope.

(** ** Python values *)

Module Py.

(** The values [json.loads] produces (and the ones the client passes around):
    [None], booleans, integers, floats, strings, lists and dicts keyed by
    strings. *)
#[warning="-register-all"]
Inductive pyval : Type :=
| PNone
| PBool (b : bool)
| PInt (z : Z)
| PFloat (f : spec_float)
| PStr (s : string)
| PList (l : list pyval)
| PDict (d : gmap string pyval).

(** The exceptions that the module raises, or that the interpreter and the
    [requests] library raise on its behalf. *)
Inductive exn : Type :=
| ValueError (msg : string)
| ApiError (msg : string)
| RegistrationError (msg : string)
| LoginError (msg : string)
| PasswordError (msg : string)
| NameError (name : string)
| TypeError
| AttributeError
| KeyError (key : string)
| JSONDecodeError
| HTTPError (status_code : Z)
| ConnectionError (detail : string).

Inductive result (A : Type) : Type :=
| Return (a : A)
| Raise (e : exn).
Arguments Return {A} a.
Arguments Raise {A} e.

Definition bind {A B : Type} (m : result A) (k : A -> result B) : result B :=
  match m with
  | Return a => k a
  | Raise e => Raise e
  end.

(** [bool(v)]: the truth value Python gives to [v] in [if v] and [not v]. *)
Definition truthy (v : pyval) : bool :=
  match v with
  | PNone => false
  | PBool b => b
  | PInt z => negb (z =? 0)%Z
  | PFloat (S754_zero _) => false
  | PFloat _ => true
  | PStr s => negb (String.eqb s "")
  | PList [] => false
  | PList (_ :: _) => true
  | PDict d => negb (bool_decide (d = ∅))
  end.

(** [len(v)]; [TypeError] for a value without a length. *)
Definition len (v : pyval) : result nat :=
  match v with
  | PStr s => Return (String.length s)
  | PList l => Return (List.length l)
  | PDict d => Return (size d)
  | _ => Raise TypeError
  end.

(** [v.get(key, default)]; only a dict has the method. *)
Definition get (v : pyval) (key : string) (otherwise : pyval) : result pyval :=
  match v with
  | PDict d => Return (default otherwise (d !! key))
  | _ => Raise AttributeError
  end.

Fixpoint chars (s : string) : list pyval :=
  match s with
  | EmptyString => []
  | String c s' => PStr (String c EmptyString) :: chars s'
  end.

(** The elements [for x in v] runs through.  A dict yields its keys; their
    order is not kept by [gmap]. *)
Definition iter (v : pyval) : result (list pyval) :=
  match v with
  | PList l => Return l
  | PStr s => Return (chars s)
  | PDict d => Return (map (fun kv => PStr (fst kv)) (map_to_list d))
  | _ => Raise TypeError
  end.

(** *** [str] methods *)

(** [c.lower()] on one code point below 256: A..Z and the capital letters
    U+00C0..U+00DE (but not the multiplication sign U+00D7) move 32 up. *)
Definition lower_char (c : ascii) : ascii :=
  let n := N_of_ascii c in
  if ((65 <=? n) && (n <=? 90) ||
      (192 <=? n) && (n <=? 222) && negb (n =? 215))%N
  then ascii_of_N (n + 32)
  else c.

Fixpoint lower (s : string) : string :=
  match s with
  | EmptyString => EmptyString
  | String c s' => String (lower_char c) (lower s')
  end.

(** [s.replace(old, new)] for a non-empty [old]: scan from the left; where
    [old] starts, emit [new] and skip the rest of the occurrence. *)
Fixpoint replace_from (old new : string) (skip : nat) (s : string) : string :=
  match s with
  | EmptyString => EmptyString
  | String c s' =>
      match skip with
      | S k => replace_from old new k s'
      | O =>
          if String.prefix old s
          then new ++ replace_from old new (String.length old - 1) s'
          else String c (replace_from old new 0 s')
      end
  end.

(** With an empty [old], Python puts [new] before every character and at
    the end. *)
Fixpoint replace_empty (new s : string) : string :=
  match s with
  | EmptyString => new
  | String c s' => new ++ String c (replace_empty new s')
  end.

Definition replace (old new s : string) : string :=
  match old with
  | EmptyString => replace_empty new s
  | _ => replace_from old new 0 s
  end.

(** [needle in hay] for two strings. *)
Fixpoint contains (needle hay : string) : bool :=
  String.prefix needle hay ||
  match hay with
  | EmptyString => false
  | String _ hay' => contains needle hay'
  end.

(** [needle in v]: substring test on a string, membership in a list, key
    membership in a dict, [TypeError] on a value that is not iterable. *)
Definition contains_str (needle : string) (v : pyval) : result bool :=
  match v with
  | PStr s => Return (contains needle s)
  | PList l =>
      Return (existsb (fun x => match x with
                                | PStr s => String.eqb s needle
                                | _ => false
                                end) l)
  | PDict d => Return (bool_decide (is_Some (d !! needle)))
  | _ => Raise TypeError
  end.

(** [str(n)] of an integer, as an f-string formats it. *)
Definition str_of_int (z : Z) : string := NilZero.string_of_int (Z.to_int z).

End Py.
Export Py.

(** ** Regular expressions, as far as the URL pattern needs them *)

Module Re.

(** Character classes are predicates on code points; the rest is the usual
    algebra.  [pattern.match] is modelled by language membership: a
    backtracking matcher finds a match exactly when one exists. *)
Inductive regex : Type :=
| Void
| Eps
| Class (p : ascii -> bool)
| Cat (r1 r2 : regex)
| Alt (r1 r2 : regex)
| Star (r : regex).

Fixpoint nullable (r : regex) : bool :=
  match r with
  | Void => false
  | Eps => true
  | Class _ => false
  | Cat r1 r2 => nullable r1 && nullable r2
  | Alt r1 r2 => nullable r1 || nullable r2
  | Star _ => true
  end.

(** Brzozowski derivative: the words [w] such that [c w] is in [r]. *)
Fixpoint deriv (c : ascii) (r : regex) : regex :=
  match r with
  | Void => Void
  | Eps => Void
  | Class p => if p c then Eps else Void
  | Cat r1 r2 =>
      if nullable r1
      then Alt (Cat (deriv c r1) r2) (deriv c r2)
      else Cat (deriv c r1) r2
  | Alt r1 r2 => Alt (deriv c r1) (deriv c r2)
  | Star r0 => Cat (deriv c r0) (Star r0)
  end.

Fixpoint matches (r : regex) (s : string) : bool :=
  match s with
  | EmptyString => nullable r
  | String c s' => matches (deriv c r) s'
  end.

(** The declarative reading of a pattern. *)
Inductive lang : regex -> string -> Prop :=
| lang_eps : lang Eps ""
| lang_class p c : p c = true -> lang (Class p) (String c "")
| lang_cat r1 r2 s1 s2 : lang r1 s1 -> lang r2 s2 -> lang (Cat r1 r2) (s1 ++ s2)
| lang_alt_l r1 r2 s : lang r1 s -> lang (Alt r1 r2) s
| lang_alt_r r1 r2 s : lang r2 s -> lang (Alt r1 r2) s
| lang_star_nil r : lang (Star r) ""
| lang_star_cons r s1 s2 : lang r s1 -> lang (Star r) s2 -> lang (Star r) (s1 ++ s2).

(** Pattern syntax. *)
Definition chr (a : ascii) : regex := Class (Ascii.eqb a).
Definition range (lo hi : ascii) (c : ascii) : bool :=
  ((N_of_ascii lo <=? N_of_ascii c) && (N_of_ascii c <=? N_of_ascii hi))%N.
Definition newline : ascii := ascii_of_N 10.
(** [.] without the DOTALL flag: any character but the newline. *)
Definition dot : regex := Class (fun c => negb (Ascii.eqb c newline)).

Fixpoint lit (s : string) : regex :=
  match s with
  | EmptyString => Eps
  | String c s' => Cat (chr c) (lit s')
  end.

Definition opt (r : regex) : regex := Alt r Eps.
Definition plus (r : regex) : regex := Cat r (Star r).

(** [r{n,}] *)
Fixpoint at_least (n : nat) (r : regex) : regex :=
  match n with
  | O => Star r
  | S k => Cat r (at_least k r)
  end.

(** [r{0,n}] and [r{m,m+n}] *)
Fixpoint at_most (n : nat) (r : regex) : regex :=
  match n with
  | O => Eps
  | S k => opt (Cat r (at_most k r))
  end.

Fixpoint between (m extra : nat) (r : regex) : regex :=
  match m with
  | O => at_most extra r
  | S k => Cat r (between k extra r)
  end.

(** A pattern that ends in [$], applied with [match]: the pattern has to
    match from the start, and [$] holds at the end of the string or just
    before a newline that is its last character. *)
Definition match_dollar (body : regex) (s : string) : bool :=
  matches (Cat body (opt (chr newline))) s.

End Re.

(** ** The [requests] library, as the client uses it *)

Module requests.

Inductive http_method : Type := GET | POST.

(** One outgoing call: [requests.get] or [requests.post] with the keyword
    arguments the client passes.  [req_data] holds the value handed to
    [json.dumps]. *)
Record request : Type := {
  req_method : http_method;
  req_url : string;
  req_headers : list (string * string);
  req_params : list (string * pyval);
  req_data : option pyval
}.

(** What the client reads from a [Response]: the status code, the body
    text, and what the JSON codec makes of that text ([None] when the text
    is not JSON). *)
Record response : Type := {
  status_code : Z;
  text : string;
  decoded : option pyval
}.

(** [response.json()] *)
Definition json (r : response) : result pyval :=
  match decoded r with
  | Some v => Return v
  | None => Raise JSONDecodeError
  end.

(** [response.raise_for_status()]: [HTTPError] for a client error (4xx) or
    a server error (5xx), nothing for any other status code. *)
Definition raise_for_status (r : response) : result unit :=
  if ((400 <=? status_code r) && (status_code r <? 600))%Z
  then Raise (HTTPError (status_code r))
  else Return tt.

(** The remote side: it answers a request with a response, or the call
    fails before there is one (no connection, a timeout). *)
Inductive reply : Type :=
| Answer (r : response)
| Failure (detail : string).

Definition transport : Type := request -> reply.

End requests.
Export requests.

(** ** Running an operation *)

(** An operation gets the transport and the requests issued so far, and
    gives back its outcome together with the extended list of requests. *)
Definition io (A : Type) : Type :=
  transport -> list request -> result A * list request.

#[global] Instance result_ret : MRet result := fun _ a => Return a.
#[global] Instance result_bind : MBind result := fun _ _ k m => Py.bind m k.

#[global] Instance io_ret : MRet io := fun _ a _ log => (Return a, log).
#[global] Instance io_bind : MBind io := fun _ _ k m net log =>
  match m net log with
  | (Return a, log') => k a net log'
  | (Raise e, log') => (Raise e, log')
  end.

(** A pure step inside an operation. *)
Definition lift {A : Type} (r : result A) : io A := fun _ log => (r, log).

Definition raise {A : Type} (e : exn) : io A := lift (Raise e).

(** [requests.get(...)] and [requests.post(...)]: the request goes out,
    whatever comes back. *)
Definition send (rq : request) : io response :=
  fun net log =>
    (match net rq with
     | Answer r => Return r
     | Failure detail => Raise (ConnectionError detail)
     end, (log ++ [rq])%list).

(** An operation started with nothing sent yet. *)
Definition run {A : Type} (m : io A) (net : transport) : result A * list request :=
  m net [].

(** [for x in xs: out.append(f(x))], stopping at the first exception. *)
Fixpoint for_each {A B : Type} (f : A -> result B) (xs : list A) : result (list B) :=
  match xs with
  | [] => Return []
  | x :: xs' => y ← f x; ys ← for_each f xs'; Return (y :: ys)
  end.

(** ** Name lookup *)

(** What a name of the module can be bound to. *)
Inductive pyobj : Type :=
| Data (v : pyval)
| PyModule (name : string)
| PyClass (name : string)
| Builtin (name : string).

(** The names bound at the top level of [api.py]: four imports and five
    classes. *)
Definition module_globals : list (string * pyobj) :=
  [("requests", PyModule "requests"); ("json", PyModule "json");
   ("random", PyModule "random"); ("re", PyModule "re");
   ("ApiError", PyClass "ApiError");
   ("RegistrationError", PyClass "RegistrationError");
   ("LoginError", PyClass "LoginError");
   ("PasswordError", PyClass "PasswordError");
   ("KennisHubAPI", PyClass "KennisHubAPI")].

(** The built-in names the methods refer to. *)
Definition builtins : list (string * pyobj) :=
  [("len", Builtin "len"); ("ValueError", PyClass "ValueError")].

Fixpoint assoc {A : Type} (x : string) (l : list (string * A)) : option A :=
  match l with
  | [] => None
  | (k, v) :: l' => if String.eqb x k then Some v else assoc x l'
  end.

(** Reading a name inside a method: its parameters and local variables,
    then the module, then the built-ins; [NameError] when none binds it. *)
Definition load_name (locals : list (string * pyval)) (x : string) : result pyobj :=
  match assoc x locals with
  | Some v => Return (Data v)
  | None =>
      match assoc x (module_globals ++ builtins) with
      | Some o => Return o
      | None => Raise (NameError x)
      end
  end.

(** [len(o)] on whatever a name was bound to. *)
Definition len_obj (o : pyobj) : result nat :=
  match o with
  | Data v => len v
  | _ => Raise TypeError
  end.

(** [raise o(msg)]: the exception raised when [o] is one of the exception
    classes in scope; calling or raising anything else is a [TypeError]. *)
Definition raise_instance {A : Type} (o : pyobj) (msg : string) : result A :=
  match o with
  | PyClass "ValueError" => Raise (ValueError msg)
  | PyClass "ApiError" => Raise (ApiError msg)
  | PyClass "RegistrationError" => Raise (RegistrationError msg)
  | PyClass "LoginError" => Raise (LoginError msg)
  | PyClass "PasswordError" => Raise (PasswordError msg)
  | _ => Raise TypeError
  end.

(** ** The client *)

(** [class KennisHubAPI]: the two attributes [__init__] stores. *)
Record KennisHubAPI : Type := {
  base_url : string;
  format : string
}.

(** [KennisHubAPI()] with the default arguments. *)
Definition default_api : KennisHubAPI :=
  {| base_url := "https://admin.kennishub.nl/api/v1/"; format := "json" |}.

Section Methods.

Variable self : KennisHubAPI.

Definition validate_title_and_description (title description : string) : result unit :=
  if negb (truthy (PStr title)) then
    Raise (ValueError "Titel is verplicht")
  else if negb (truthy (PStr description)) then
    Raise (ValueError "Een korte beschrijving is verplicht")
  else if (280 <? String.length description)%nat then
    Raise (ValueError "Er zijn maximaal 280 karakters toegestaan")
  else Return tt.

Definition alnum (c : ascii) : bool :=
  Re.range "a" "z" c || Re.range "A" "Z" c || Re.range "0" "9" c.

(** The pattern of [validate_link_and_title] without its anchors:
    [((https?):\/\/)?(www.)?[a-z0-9-]+(\.[a-z]{2,}){1,3}]
    [(#?\/?[a-zA-Z0-9#-]+)*\/?(\?[a-zA-Z0-9-_]+=[a-zA-Z0-9-%]+&?)?] *)
Definition url_pattern : Re.regex :=
  let scheme := Re.opt (Re.Cat (Re.Cat (Re.lit "http") (Re.opt (Re.chr "s"))) (Re.lit "://")) in
  let www := Re.opt (Re.Cat (Re.lit "www") Re.dot) in
  let host := Re.plus (Re.Class (fun c =>
                Re.range "a" "z" c || Re.range "0" "9" c || Ascii.eqb c "-")) in
  let tld := Re.between 1 2
               (Re.Cat (Re.chr ".") (Re.at_least 2 (Re.Class (Re.range "a" "z")))) in
  let segment := Re.Cat (Re.opt (Re.chr "#"))
                   (Re.Cat (Re.opt (Re.chr "/"))
                      (Re.plus (Re.Class (fun c =>
                         alnum c || Ascii.eqb c "#" || Ascii.eqb c "-")))) in
  let query := Re.Cat (Re.chr "?")
                 (Re.Cat (Re.plus (Re.Class (fun c =>
                            alnum c || Ascii.eqb c "-" || Ascii.eqb c "_")))
                    (Re.Cat (Re.chr "=")
                       (Re.Cat (Re.plus (Re.Class (fun c =>
                                  alnum c || Ascii.eqb c "-" || Ascii.eqb c "%")))
                          (Re.opt (Re.chr "&"))))) in
  Re.Cat scheme (Re.Cat www (Re.Cat host (Re.Cat tld
    (Re.Cat (Re.Star segment) (Re.Cat (Re.opt (Re.chr "/")) (Re.opt query)))))).

(** The method has the parameters [self], [url] and [title]; its last test
    reads a name [description]. *)
Definition validate_link_and_title (url title : string) : result unit :=
  if negb (truthy (PStr title)) then
    Raise (ValueError "Een titel is verplicht.")
  else if negb (truthy (PStr url)) then
    Raise (ValueError "Een bron is verplicht")
  else if negb (Re.match_dollar url_pattern url) then
    Raise (ValueError "Vul een valide url in")
  else
    description ← load_name [("url", PStr url); ("title", PStr title)] "description";
    n ← len_obj description;
    if (180 <? n)%nat then
      Raise (ValueError "Informatie over deze bron mag maar 180 karakters zijn.")
    else Return tt.

Definition validate_message (message : string) : result unit :=
  if negb (truthy (PStr message)) then
    Raise (ValueError "Een bericht is verplicht")
  else if (144 <? String.length message)%nat then
    Raise (ValueError "Een bericht mag maximaal 144 karakters zijn")
  else Return tt.

Definition input2slug (input : string) : string :=
  let slug := replace " " "-" (lower input) in
  slug.

Definition json_headers : list (string * string) :=
  [("Content-type", "application/json"); ("Accept", "text/plain")].

Definition bearer (token : string) : list (string * string) :=
  [("Authorization", "Bearer " ++ token)].

(** The call [requests.post(endpoint, data=json.dumps(data), headers=headers)]
    of [register_user]. *)
Definition register_request (name email function password url : string) : request :=
  let endpoint := base_url self ++ "user/register" in
  let data := PDict (list_to_map
                [("name", PStr name); ("email", PStr email);
                 ("function", PStr function); ("url", PStr url);
                 ("password", PStr password)]) in
  {| req_method := POST; req_url := endpoint; req_headers := json_headers;
     req_params := []; req_data := Some data |}.

Definition register_user (name email function password url : string) : io pyval :=
  if (String.length password <? 8)%nat then
    raise (A:=pyval) (RegistrationError "Je wachtwoord moet minimaal 8 karakters bevatten.")
  else
    response ← send (register_request name email function password url);
    if (status_code response =? 200)%Z then
      data ← lift (json response);
      status ← lift (get data "status" PNone);
      if negb (truthy status) then
        raise (A:=pyval) (RegistrationError "Er is iets mis gegaan met registreren, probeer het later nog eens. Of probeer je wachtwoord te resetten.")
      else mret PNone
    else if (status_code response =? 401)%Z then
      raise (A:=pyval) (RegistrationError "Wachtwoord is verplicht.")
    else
      _ ← lift (raise_for_status response); mret PNone.

Definition reset_password_request (email : string) : request :=
  let endpoint := base_url self ++ "user/reset_password" in
  let data := PDict (list_to_map [("email", PStr email)]) in
  {| req_method := POST; req_url := endpoint; req_headers := json_headers;
     req_params := []; req_data := Some data |}.

Definition reset_password (email : string) : io pyval :=
  response ← send (reset_password_request email);
  if (status_code response =? 200)%Z then
    data ← lift (json response);
    status ← lift (get data "status" PNone);
    if negb (truthy status) then
      error_message ← lift (get data "message" PNone);
      found ← lift (if truthy error_message
                    then contains_str "The selected E-mailadres is invalid." error_message
                    else Return false);
      if (found : bool) then raise (A:=pyval) (PasswordError "Invalid email address")
      else raise (A:=pyval) (PasswordError "Unknown error")
    else mret PNone
  else
    _ ← lift (raise_for_status response); mret PNone.

Definition verify_email_request (id : Z) (hash_value expires signature : string) : request :=
  let endpoint := base_url self ++ "email/verify/" ++ str_of_int id ++ "/" ++ hash_value in
  let params := [("expires", PStr expires); ("signature", PStr signature)] in
  {| req_method := GET; req_url := endpoint; req_headers := json_headers;
     req_params := params; req_data := None |}.

Definition verify_email (id : Z) (hash_value expires signature : string) : io pyval :=
  response ← send (verify_email_request id hash_value expires signature);
  if negb (status_code response =? 200)%Z then
    cls ← lift (load_name
                  [("id", PInt id); ("hash_value", PStr hash_value);
                   ("expires", PStr expires); ("signature", PStr signature)]
                  "InvalidVerificationLink");
    lift (raise_instance cls "Invalid verification link")
  else
    data ← lift (json response);
    mret data.

(** The dict built for one element of [data] in [get_topics_list]. *)
Definition topics_info (topic : pyval) : result pyval :=
  topic_id ← get topic "id" PNone;
  user_id ← get topic "user_id" PNone;
  title ← get topic "title" PNone;
  topic_slug ← get topic "slug" PNone;
  description ← get topic "description" PNone;
  topic_created_at ← get topic "created_at" PNone;
  topic_updated_at ← get topic "updated_at" PNone;
  topic_human_readable_created_at ← get topic "human_readable_created_at" PNone;
  user_name ← get topic "user" (PDict ∅) ≫= (fun user => get user "name" PNone);
  user_slug ← get topic "user" (PDict ∅) ≫= (fun user => get user "slug" PNone);
  Return (PDict (list_to_map
    [("topic_id", topic_id); ("user_id", user_id); ("title", title);
     ("topic_slug", topic_slug); ("description", description);
     ("topic_created_at", topic_created_at);
     ("topic_updated_at", topic_updated_at);
     ("topic_human_readable_created_at", topic_human_readable_created_at);
     ("user_name", user_name); ("user_slug", user_slug)])).

Definition topics_list_request (token sort_order : string) : request :=
  let endpoint := base_url self ++ "topics/list" in
  let params := [("sortOrder", PStr sort_order)] in
  let headers := bearer token in
  {| req_method := GET; req_url := endpoint; req_headers := headers;
     req_params := params; req_data := None |}.

Definition get_topics_list (token sort_order : string) : io pyval :=
  response ← send (topics_list_request token sort_order);
  _ ← lift (raise_for_status response);
  data ← lift (json response ≫= (fun body => get body "data" (PList [])));
  topics ← lift (iter data);
  selected_info ← lift (for_each topics_info topics);
  mret (PList selected_info).

Definition posts_create_request (token title description : string) (topic_id : Z)
    (url : string) : request :=
  let endpoint := base_url self ++ "posts/create" in
  let params := [("title", PStr title); ("description", PStr description);
                 ("topic_id", PInt topic_id); ("url", PStr url)] in
  let headers := bearer token in
  {| req_method := POST; req_url := endpoint; req_headers := headers;
     req_params := params; req_data := None |}.

Definition send_posts_replies (token title description : string) (topic_id : Z)
    (url : string) : io pyval :=
  _ ← lift (validate_link_and_title url title);
  response ← send (posts_create_request token title description topic_id url);
  if String.eqb (format self) "json" then lift (json response)
  else mret (PStr (text response)).

Definition comment_create_request (token message : string) (post_id : Z) : request :=
  let endpoint := base_url self ++ "comments/" ++ str_of_int post_id ++ "/create" in
  let params := [("message", PStr message)] in
  let headers := bearer token in
  {| req_method := POST; req_url := endpoint; req_headers := headers;
     req_params := params; req_data := None |}.

Definition send_reply_comment (token message : string) (post_id : Z) : io pyval :=
  response ← send (comment_create_request token message post_id);
  if String.eqb (format self) "json" then lift (json response)
  else mret (PStr (text response)).

(** The dict built for one element of [data] in [get_topics_replies]. *)
Definition post_info (post : pyval) : result pyval :=
  title ← get post "title" PNone;
  description ← get post "description" PNone;
  url ← get post "url" PNone;
  post_id ← get post "id" PNone;
  post_date ← get post "human_readable_created_at" PNone;
  user_name ← get post "user" (PDict ∅) ≫= (fun user => get user "name" PNone);
  user_slug ← get post "user" (PDict ∅) ≫= (fun user => get user "slug" PNone);
  upvotes_count ← get post "upvotes_count" PNone;
  comments_count ← get post "comments_count" PNone;
  post_created_at ← get post "user" (PDict ∅) ≫= (fun user => get user "created_at" PNone);
  post_updated_at ← get post "user" (PDict ∅) ≫= (fun user => get user "updated_at" PNone);
  Return (PDict (list_to_map
    [("title", title); ("description", description); ("url", url);
     ("post_id", post_id); ("post_date", post_date);
     ("user_name", user_name); ("user_slug", user_slug);
     ("upvotes_count", upvotes_count); ("comments_count", comments_count);
     ("post_created_at", post_created_at);
     ("post_updated_at", post_updated_at)])).

Definition posts_list_request (token input_topic sort_by sort_order : string) : request :=
  let topic_slug := input2slug input_topic in
  let url := base_url self ++ "posts/list" in
  let params := [("topic_slug", PStr topic_slug); ("sortBy", PStr sort_by);
                 ("sortOrder", PStr sort_order)] in
  let headers := bearer token in
  {| req_method := GET; req_url := url; req_headers := headers;
     req_params := params; req_data := None |}.

Definition get_topics_replies (token input_topic sort_by sort_order : string) : io pyval :=
  response ← send (posts_list_request token input_topic sort_by sort_order);
  data ← lift (json response ≫= (fun body => get body "data" (PList [])));
  posts ← lift (iter data);
  selected_info ← lift (for_each post_info posts);
  mret (PList selected_info).

End Methods.

(** ** The other methods of the client *)

(** [v[key]] on a decoded body: [KeyError] for a missing key, [TypeError]
    for a value that is not a dict. *)
Definition getitem (v : pyval) (key : string) : result pyval :=
  match v with
  | PDict d =>
      match d !! key with
      | Some x => Return x
      | None => Raise (KeyError key)
      end
  | _ => Raise TypeError
  end.

(** [v == True]: [True] itself and the numbers equal to 1. *)
Definition eq_true (v : pyval) : bool :=
  match v with
  | PBool b => b
  | PInt z => (z =? 1)%Z
  | PFloat (S754_finite false m e) => ((e <=? 0) && (Z.pos m =? 2 ^ (- e)))%Z
  | _ => false
  end.

(** How a method ends that returns a value or does
    [raise ValueError(data['message'])].  The message of the remote side can
    be any decoded value, not only a text, so that exception is kept with
    its argument: [Served v] is [return v], [Refused m] is
    [raise ValueError(m)]. *)
Inductive served : Type :=
| Served (data : pyval)
| Refused (message : pyval).

Section OtherMethods.

Variable self : KennisHubAPI.

Definition login_request (email password : string) : request :=
  let endpoint := base_url self ++ "user/login" in
  let data := PDict (list_to_map [("email", PStr email); ("password", PStr password)]) in
  {| req_method := POST; req_url := endpoint; req_headers := json_headers;
     req_params := []; req_data := Some data |}.

Definition login_user (email password : string) : io pyval :=
  response ← send (login_request email password);
  if (status_code response =? 200)%Z then
    data ← lift (json response);
    status ← lift (get data "status" PNone);
    if negb (truthy status) then
      raise (A:=pyval) (LoginError "Onjuiste gebruikersnaam of wachtwoord")
    else mret PNone
  else
    _ ← lift (raise_for_status response); mret PNone.

Definition user_details_request (token : string) : request :=
  let endpoint := base_url self ++ "user/details" in
  let headers := [("Authorization", "Bearer " ++ token);
                  ("Content-Type", "application/json")] in
  {| req_method := GET; req_url := endpoint; req_headers := headers;
     req_params := []; req_data := None |}.

Definition get_user_info (token : string) : io served :=
  response ← send (user_details_request token);
  if (status_code response =? 200)%Z then
    data ← lift (json response);
    status ← lift (get data "status" PNone);
    if eq_true status then
      v ← lift (getitem data "data"); mret (Served v)
    else
      m ← lift (getitem data "message"); mret (Refused m)
  else
    _ ← lift (raise_for_status response); mret (Served PNone).

Definition topics_create_request (token title description : string) : request :=
  let endpoint := base_url self ++ "topics/create" in
  let params := [("title", PStr title); ("description", PStr description)] in
  let headers := bearer token in
  {| req_method := POST; req_url := endpoint; req_headers := headers;
     req_params := params; req_data := None |}.

Definition create_topic (token title description : string) : io served :=
  _ ← lift (validate_title_and_description title description);
  response ← send (topics_create_request token title description);
  if (status_code response =? 200)%Z then
    data ← lift (json response);
    status ← lift (getitem data "status");
    if truthy status then
      v ← lift (getitem data "data"); mret (Served v)
    else
      m ← lift (getitem data "message"); mret (Refused m)
  else
    _ ← lift (raise_for_status response); mret (Served PNone).

Definition follow_topic_request (token : string) (topic_id : Z) : request :=
  let endpoint := base_url self ++ "topics/" ++ str_of_int topic_id ++ "/follow-topic" in
  let headers := bearer token in
  {| req_method := POST; req_url := endpoint; req_headers := headers;
     req_params := []; req_data := None |}.

Definition follow_topic (token : string) (topic_id : Z) : io pyval :=
  response ← send (follow_topic_request token topic_id);
  if String.eqb (format self) "json" then lift (json response)
  else mret (PStr (text response)).

Definition profile_request (token input_name : string) : request :=
  let slug := input2slug input_name in
  let endpoint := base_url self ++ "user/profile/" ++ slug in
  let headers := bearer token in
  {| req_method := GET; req_url := endpoint; req_headers := headers;
     req_params := []; req_data := None |}.

Definition get_profile (token input_name : string) : io served :=
  response ← send (profile_request token input_name);
  if (status_code response =? 200)%Z then
    data ← lift (json response);
    status ← lift (getitem data "status");
    if truthy status then
      v ← lift (getitem data "data"); mret (Served v)
    else
      m ← lift (getitem data "message"); mret (Refused m)
  else
    _ ← lift (raise_for_status response); mret (Served PNone).

Definition forgot_password_request (email : string) : request :=
  let endpoint := base_url self ++ "user/forgot-password" in
  let data := PDict (list_to_map [("email", PStr email)]) in
  {| req_method := POST; req_url := endpoint; req_headers := json_headers;
     req_params := []; req_data := Some data |}.

Definition forgot_password (email : string) : io pyval :=
  response ← send (forgot_password_request email);
  if String.eqb (format self) "json" then lift (json response)
  else mret (PStr (text response)).

End OtherMethods.

(** ** What the specification says, in its own words *)

(** Slug conversion as the specification words it: every character is put in
    lower case, and every space becomes a hyphen. *)
Fixpoint spec_slug (s : string) : string :=
  match s with
  | EmptyString => EmptyString
  | String c s' =>
      let c' := lower_char c in
      String (if Ascii.eqb c' " " then "-"%char else c') (spec_slug s')
  end.

(** The mark [reset_password] looks for in the message of the body. *)
Definition invalid_email_mark : string := "The selected E-mailadres is invalid.".

(** "non-200 -> transport error", for [reset_password]; read as weakly as
    it can be: some exception is raised. *)
Definition reset_password_non_200_raises : Prop :=
  forall (self : KennisHubAPI) (email : string) (net : transport) (r : response),
    net (reset_password_request self email) = Answer r ->
    status_code r <> 200%Z ->
    exists e : exn, fst (run (reset_password self email) net) = Raise e.

(** "any other falsy-status message raises Unknown error", for
    [reset_password]: the message is not a text that holds the mark. *)
Definition reset_password_other_falsy_unknown : Prop :=
  forall (self : KennisHubAPI) (email : string) (net : transport) (r : response)
         (d : gmap string pyval),
    net (reset_password_request self email) = Answer r ->
    status_code r = 200%Z ->
    decoded r = Some (PDict d) ->
    truthy (default PNone (d !! "status")) = false ->
    (forall s, d !! "message" = Some (PStr s) -> contains invalid_email_mark s = false) ->
    fst (run (reset_password self email) net) = Raise (PasswordError "Unknown error").

(** "always raises transport error on non-2xx", for [get_topics_list]; again
    with any exception at all. *)
Definition get_topics_list_non_2xx_raises : Prop :=
  forall (self : KennisHubAPI) (token sort_order : string) (net : transport)
         (r : response),
    net (topics_list_request self token sort_order) = Answer r ->
    ~ (200 <= status_code r < 300)%Z ->
    exists e : exn, fst (run (get_topics_list self token sort_order) net) = Raise e.

(** The remote topic record of the specification's example, the body that
    carries it as the only element of [data], and the expected output. *)
Definition example_topic : pyval :=
  PDict (list_to_map
    [("id", PInt 1); ("user_id", PInt 2); ("title", PStr "T"); ("slug", PStr "t");
     ("description", PStr "D"); ("created_at", PStr "c"); ("updated_at", PStr "u");
     ("human_readable_created_at", PStr "now");
     ("user", PDict (list_to_map [("name", PStr "A"); ("slug", PStr "a")]))]).

Definition example_body : pyval := PDict (list_to_map [("data", PList [example_topic])]).

Definition example_output : pyval :=
  PList [PDict (list_to_map
    [("topic_id", PInt 1); ("user_id", PInt 2); ("title", PStr "T");
     ("topic_slug", PStr "t"); ("description", PStr "D");
     ("topic_created_at", PStr "c"); ("topic_updated_at", PStr "u");
     ("topic_human_readable_created_at", PStr "now");
     ("user_name", PStr "A"); ("user_slug", PStr "a")])].

(** "total over arbitrary JSON bodies": a 2xx response whose body is a JSON
    object always gives a result. *)
Definition get_topics_list_total : Prop :=
  forall (self : KennisHubAPI) (token sort_order : string) (net : transport)
         (r : response) (d : gmap string pyval),
    net (topics_list_request self token sort_order) = Answer r ->
    (200 <= status_code r < 300)%Z ->
    decoded r = Some (PDict d) ->
    exists v, fst (run (get_topics_list self token sort_order) net) = Return v.

Definition get_topics_replies_total : Prop :=
  forall (self : KennisHubAPI) (token input_topic sort_by sort_order : string)
         (net : transport) (r : response) (d : gmap string pyval),
    net (posts_list_request self token input_topic sort_by sort_order) = Answer r ->
    (200 <= status_code r < 300)%Z ->
    decoded r = Some (PDict d) ->
    exists v,
      fst (run (get_topics_replies self token input_topic sort_by sort_order) net) =
      Return v.

(** ** The shape of the projections *)

(** Output key and source key of the fields read from the record itself,
    and of the fields read from its embedded [user]. *)
Definition topic_fields : list (string * string) :=
  [("topic_id", "id"); ("user_id", "user_id"); ("title", "title");
   ("topic_slug", "slug"); ("description", "description");
   ("topic_created_at", "created_at"); ("topic_updated_at", "updated_at");
   ("topic_human_readable_created_at", "human_readable_created_at")].

Definition topic_user_fields : list (string * string) :=
  [("user_name", "name"); ("user_slug", "slug")].

Definition post_fields : list (string * string) :=
  [("title", "title"); ("description", "description"); ("url", "url");
   ("post_id", "id"); ("post_date", "human_readable_created_at");
   ("upvotes_count", "upvotes_count"); ("comments_count", "comments_count")].

Definition post_user_fields : list (string * string) :=
  [("user_name", "name"); ("user_slug", "slug");
   ("post_created_at", "created_at"); ("post_updated_at", "updated_at")].

(** A record the projections can read: a JSON object whose [user], when
    the key is present, is a JSON object too. *)
Definition is_record (v : pyval) : bool :=
  match v with
  | PDict p =>
      match p !! "user" with
      | None | Some (PDict _) => true
      | Some _ => false
      end
  | _ => false
  end.

(** The embedded user of a record; the empty dict stands in for a missing
    one, as [post.get('user', {})] has it. *)
Definition user_of (p : gmap string pyval) : gmap string pyval :=
  match p !! "user" with
  | Some (PDict u) => u
  | _ => ∅
  end.

(** [out] carries, under each output key, the value the record (or its
    user) has under the source key, and [None] where that key is missing. *)
Definition projects (fields user_fields : list (string * string))
    (v out : pyval) : Prop :=
  exists p q : gmap string pyval,
    v = PDict p /\ out = PDict q /\
    (forall o k, In (o, k) fields -> q !! o = Some (default PNone (p !! k))) /\
    (forall o k, In (o, k) user_fields ->
                 q !! o = Some (default PNone (user_of p !! k))).

(** A post whose dates differ from the dates of its user. *)
Definition dated_post : pyval :=
  PDict (list_to_map
    [("id", PInt 5); ("title", PStr "T");
     ("created_at", PStr "post-c"); ("updated_at", PStr "post-u");
     ("user", PDict (list_to_map
        [("name", PStr "A"); ("slug", PStr "a");
         ("created_at", PStr "user-c"); ("updated_at", PStr "user-u")]))]).

(** ** Text over all code points *)

(** The methods above take their texts from the 256 code points of
    [string].  [input2slug] is the one method whose result depends on what
    [str.lower] does to each character, so it is embedded a second time over
    texts of arbitrary code points, the way the interpreter computes it. *)
Module Unicode.

Definition space : N := 32.
Definition hyphen : N := 45.
(** U+03A3, U+03C2 and U+03C3: the capital sigma, the final small sigma and
    the small sigma. *)
Definition capital_sigma : N := 931.
Definition final_sigma : N := 962.
Definition small_sigma : N := 963.

Section Lower.

(** The tables of the interpreter that this file does not carry: the full
    lower-case mapping of the code points from 256 on (one to three code
    points each), and the properties Cased and Case_Ignorable. *)
Variable lower_beyond : N -> list N.
Variables cased case_ignorable : N -> bool.

(** The full lower-case mapping of one code point; below 256 it is
    [lower_char]. *)
Definition lower_full (c : N) : list N :=
  if (c <? 256)%N then [N_of_ascii (lower_char (ascii_of_N c))]
  else lower_beyond c.

(** The nearest code point of [l] that is not case-ignorable. *)
Definition next_relevant (l : list N) : option N :=
  find (fun c => negb (case_ignorable c)) l.

(** What a capital sigma becomes: the final sigma when a cased letter
    stands before it and none after it (case-ignorable code points apart),
    the small sigma otherwise.  [before] is read backwards from the sigma,
    [after] forwards. *)
Definition handle_capital_sigma (before after : list N) : N :=
  let final :=
    match next_relevant before with
    | Some c => cased c
    | None => false
    end in
  let final :=
    if final then
      match next_relevant after with
      | Some c => negb (cased c)
      | None => true
      end
    else false in
  if final then final_sigma else small_sigma.

(** [s.lower()], code point by code point; the capital sigma is the one
    code point that is lower-cased by its context. *)
Fixpoint lower_from (before s : list N) : list N :=
  match s with
  | [] => []
  | c :: s' =>
      ((if (c =? capital_sigma)%N then [handle_capital_sigma before s']
        else lower_full c) ++ lower_from (c :: before) s')%list
  end.

Definition lower (s : list N) : list N := lower_from [] s.

End Lower.

Fixpoint starts_with (p s : list N) : bool :=
  match p, s with
  | [], _ => true
  | _ :: _, [] => false
  | a :: p', b :: s' => (a =? b)%N && starts_with p' s'
  end.

(** [s.replace(old, new)], as [Py.replace] has it. *)
Fixpoint replace_from (old new : list N) (skip : nat) (s : list N) : list N :=
  match s with
  | [] => []
  | c :: s' =>
      match skip with
      | S k => replace_from old new k s'
      | O =>
          if starts_with old s
          then (new ++ replace_from old new (List.length old - 1) s')%list
          else c :: replace_from old new 0 s'
      end
  end.

Fixpoint replace_empty (new s : list N) : list N :=
  match s with
  | [] => new
  | c :: s' => (new ++ c :: replace_empty new s')%list
  end.

Definition replace (old new s : list N) : list N :=
  match old with
  | [] => replace_empty new s
  | _ => replace_from old new 0 s
  end.

Definition input2slug (lower_beyond : N -> list N) (cased case_ignorable : N -> bool)
    (input : list N) : list N :=
  let slug := replace [space] [hyphen] (lower lower_beyond cased case_ignorable input) in
  slug.

(** Slug conversion as the specification words it: lower-case the input,
    then put a hyphen for every space. *)
Definition spec_slug (lower_beyond : N -> list N) (cased case_ignorable : N -> bool)
    (input : list N) : list N :=
  map (fun c => if (c =? space)%N then hyphen else c)
      (lower lower_beyond cased case_ignorable input).

(** A code point that [str.lower] leaves as it is, wherever it stands. *)
Definition fixed (lower_beyond : N -> list N) (c : N) : Prop :=
  c <> capital_sigma /\ lower_full lower_beyond c = [c].

(** What the proofs ask of the table: a lower-cased code point is not
    lower-cased any further, and the two small sigmas are lower case. *)
Definition stable (lower_beyond : N -> list N) : Prop :=
  (forall c d, (256 <= c)%N -> In d (lower_beyond c) -> fixed lower_beyond d) /\
  lower_beyond final_sigma = [final_sigma] /\
  lower_beyond small_sigma = [small_sigma].

(** An excerpt of the three tables, enough to run examples: the capital
    sigma, the dotted capital I (U+0130, lower-cased to two code points),
    the Kelvin sign (U+212A, lower-cased to the letter k); the letters of
    ASCII and the sigmas as cased, the apostrophe and the combining dot
    (U+0307) as case-ignorable. *)
Definition sample_lower_beyond (c : N) : list N :=
  if (c =? capital_sigma)%N then [small_sigma]
  else if (c =? 304)%N then [105; 775]%N
  else if (c =? 8490)%N then [107]%N
  else [c].

Definition sample_cased (c : N) : bool :=
  ((65 <=? c) && (c <=? 90) || (97 <=? c) && (c <=? 122) ||
   (c =? capital_sigma) || (c =? final_sigma) || (c =? small_sigma))%N.

Definition sample_case_ignorable (c : N) : bool := ((c =? 39) || (c =? 775))%N.

End Unicode.

(** The code points of a text of the 256-code-point model. *)
Fixpoint codes (s : string) : list N :=
  match s with
  | EmptyString => []
  | String a s' => N_of_ascii a :: codes s'
  end.

(** ** Facts read off a pattern *)

(** [occurs c s]: the character [c] is somewhere in [s]. *)
Fixpoint occurs (c : ascii) (s : string) : bool :=
  match s with
  | EmptyString => false
  | String a s' => Ascii.eqb a c || occurs c s'
  end.

(** The 256 code points of the model. *)
Definition all_chars : list ascii := map ascii_of_nat (seq 0 256).

(** The class [p] holds no character but [c]. *)
Definition only_char (c : ascii) (p : ascii -> bool) : bool :=
  forallb (fun a => implb (p a) (Ascii.eqb a c)) all_chars.

(** A check on the syntax of a pattern that, when it holds, tells that every
    word of the pattern has the character [c] in it. *)
Fixpoint must_contain (c : ascii) (r : Re.regex) : bool :=
  match r with
  | Re.Void => true
  | Re.Eps => false
  | Re.Class p => only_char c p
  | Re.Cat r1 r2 => must_contain c r1 || must_contain c r2
  | Re.Alt r1 r2 => must_contain c r1 && must_contain c r2
  | Re.Star _ => false
  end.

(** A check on the syntax of a pattern that, when it holds, tells that the
    pattern has no word at all. *)
Fixpoint is_void (r : Re.regex) : bool :=
  match r with
  | Re.Void => true
  | Re.Eps => false
  | Re.Class _ => false
  | Re.Cat r1 r2 => is_void r1 || is_void r2
  | Re.Alt r1 r2 => is_void r1 && is_void r2
  | Re.Star _ => false
  end.

(** [[a-z0-9-]], the class of the host part of the url pattern. *)
Definition host_char (c : ascii) : bool :=
  Re.range "a" "z" c || Re.range "0" "9" c || Ascii.eqb c "-".

(** A character that [str.lower] changes. *)
Definition capital (c : ascii) : bool := negb (Ascii.eqb (lower_char c) c).

(** ** The matcher decides the language of a pattern *)

Section Matcher.
Import Re.

Lemma app_empty_inv (s1 s2 : string) : s1 ++ s2 = "" -> s1 = "" /\ s2 = "".
Proof. destruct s1; simpl; [auto | discriminate]. Qed.

Lemma app_cons_inv (c : ascii) (s s1 s2 : string) :
  s1 ++ s2 = String c s ->
  (s1 = "" /\ s2 = String c s) \/ (exists s1', s1 = String c s1' /\ s = s1' ++ s2).
Proof.
  destruct s1 as [|a s1]; simpl; intros H.
  - left. auto.
  - right. injection H as -> <-. eauto.
Qed.

Lemma nullable_lang (r : Re.regex) : nullable r = true <-> lang r "".
Proof.
  split.
  - induction r as [| |p|r1 IH1 r2 IH2|r1 IH1 r2 IH2|r IH]; simpl; intros H;
      try discriminate.
    + constructor.
    + apply andb_true_iff in H as [H1 H2].
      apply (lang_cat r1 r2 "" ""); auto.
    + apply orb_true_iff in H as [H|H]; [apply lang_alt_l | apply lang_alt_r]; auto.
    + constructor.
  - intros H. remember "" as s eqn:E.
    induction H as [|p c Hp|r1 r2 s1 s2 H1 IH1 H2 IH2|r1 r2 s H IH|r1 r2 s H IH
                   |r|r s1 s2 H1 IH1 H2 IH2]; simpl; try discriminate; auto.
    + apply app_empty_inv in E as [-> ->]. rewrite IH1, IH2; auto.
    + rewrite IH; auto.
    + rewrite IH; auto. apply orb_true_r.
Qed.

Lemma deriv_sound (c : ascii) (r : regex) :
  forall s, lang (deriv c r) s -> lang r (String c s).
Proof.
  induction r as [| |p|r1 IH1 r2 IH2|r1 IH1 r2 IH2|r IH]; simpl; intros s H.
  - inversion H.
  - inversion H.
  - destruct (p c) eqn:Hp; inversion H; subst. now constructor.
  - destruct (nullable r1) eqn:Hn.
    + inversion H as [| | | ? ? ? H' | ? ? ? H' | |]; subst.
      * inversion H' as [| |? ? s1 s2 Ha Hb| | | |]; subst.
        apply (lang_cat r1 r2 (String c s1) s2); auto.
      * apply (lang_cat r1 r2 "" (String c s)); auto.
        now apply nullable_lang.
    + inversion H as [| |? ? s1 s2 Ha Hb| | | |]; subst.
      apply (lang_cat r1 r2 (String c s1) s2); auto.
  - inversion H; subst; [apply lang_alt_l | apply lang_alt_r]; auto.
  - inversion H as [| |? ? s1 s2 Ha Hb| | | |]; subst.
    apply (lang_star_cons r (String c s1) s2); auto.
Qed.

Lemma deriv_complete (c : ascii) (r : regex) (w : string) :
  lang r w -> forall s, w = String c s -> lang (deriv c r) s.
Proof.
  induction 1 as [|p a Hp|r1 r2 s1 s2 H1 IH1 H2 IH2|r1 r2 w H IH|r1 r2 w H IH
                 |r|r s1 s2 H1 IH1 H2 IH2]; intros s E; simpl.
  - discriminate.
  - injection E as -> <-. rewrite Hp. constructor.
  - apply app_cons_inv in E as [[-> ->]|(s1' & -> & ->)].
    + apply nullable_lang in H1. rewrite H1. apply lang_alt_r. auto.
    + destruct (nullable r1).
      * apply lang_alt_l. constructor; auto.
      * constructor; auto.
  - apply lang_alt_l; auto.
  - apply lang_alt_r; auto.
  - discriminate.
  - apply app_cons_inv in E as [[-> ->]|(s1' & -> & ->)].
    + apply (IH2 s eq_refl).
    + constructor; auto.
Qed.

Theorem matches_lang (r : regex) (s : string) : matches r s = true <-> lang r s.
Proof.
  revert r. induction s as [|c s IH]; intros r; simpl.
  - apply nullable_lang.
  - rewrite IH. split.
    + apply deriv_sound.
    + intros H. now apply (deriv_complete c r (String c s)).
Qed.

Lemma append_empty_r (s : string) : s ++ "" = s.
Proof. induction s as [|c s IH]; [reflexivity | exact (f_equal (String c) IH)]. Qed.

(** A pattern ending in [$] matches when the whole string is in the
    language of its body, or is such a word followed by one newline. *)
Lemma match_dollar_lang (body : regex) (s : string) :
  match_dollar body s = true <->
  lang body s \/ exists p, s = p ++ String newline "" /\ lang body p.
Proof.
  unfold match_dollar. rewrite matches_lang. split.
  - intros H. inversion H as [| |? ? s1 s2 H1 H2| | | |]; subst.
    inversion H2 as [| | |? ? ? Hc|? ? ? He| |]; subst.
    + inversion Hc as [|? c Hp| | | | |]; subst.
      apply Ascii.eqb_eq in Hp. subst c. right. eauto.
    + inversion He; subst. rewrite append_empty_r. now left.
  - intros [H|(p & -> & H)].
    + rewrite <- (append_empty_r s). constructor; [assumption|].
      apply lang_alt_r. constructor.
    + constructor; [assumption|]. apply lang_alt_l. constructor.
      apply Ascii.eqb_refl.
Qed.

End Matcher.

(** ** Properties of the string helpers *)

Example lower_sample : lower "Hello World" = "hello world".
Proof. reflexivity. Qed.

Example replace_sample : replace "ab" "x" "abcabab" = "xcxx".
Proof. reflexivity. Qed.

Example replace_empty_sample : replace "" "-" "ab" = "-a-b-".
Proof. reflexivity. Qed.

Example contains_sample :
  contains "lo W" "Hello World" = true /\ contains "low" "Hello World" = false.
Proof. split; reflexivity. Qed.

Example str_of_int_sample : str_of_int 92 = "92" /\ str_of_int (-5) = "-5".
Proof. split; reflexivity. Qed.

Lemma truthy_str (s : string) : truthy (PStr s) = false <-> s = "".
Proof.
  simpl. destruct (String.eqb_spec s ""); simpl; split; congruence.
Qed.

Lemma lower_char_idem (c : ascii) : lower_char (lower_char c) = lower_char c.
Proof. destruct c as [[] [] [] [] [] [] [] []]; reflexivity. Qed.

Lemma lower_char_space (c : ascii) : lower_char c = " "%char <-> c = " "%char.
Proof.
  destruct c as [[] [] [] [] [] [] [] []]; vm_compute; split; congruence.
Qed.

Lemma lower_char_hyphen : lower_char "-" = "-"%char.
Proof. reflexivity. Qed.

(** Replacing a one-character [old] by a one-character [new] works
    character by character. *)
Lemma replace_char (a b : ascii) (s : string) :
  replace (String a "") (String b "") s =
  (fix go (s : string) : string :=
     match s with
     | EmptyString => EmptyString
     | String c s' => String (if Ascii.eqb c a then b else c) (go s')
     end) s.
Proof.
  unfold replace.
  induction s as [|c s IH]; [reflexivity|].
  cbn [replace_from String.prefix String.length Nat.sub].
  destruct (ascii_dec a c) as [->|Hne].
  - rewrite Ascii.eqb_refl. destruct s; cbn [String.prefix]; cbn; rewrite <- IH; reflexivity.
  - destruct (Ascii.eqb_spec c a) as [->|_]; [congruence|]. rewrite <- IH. reflexivity.
Qed.

Lemma input2slug_spec_slug (s : string) : input2slug s = spec_slug s.
Proof.
  unfold input2slug. rewrite replace_char.
  induction s as [|c s IH]; [reflexivity|].
  cbn [lower spec_slug]. rewrite <- IH. reflexivity.
Qed.

Lemma spec_slug_idem (s : string) : spec_slug (spec_slug s) = spec_slug s.
Proof.
  induction s as [|c s IH]; [reflexivity|].
  cbn [spec_slug]. rewrite IH. f_equal.
  destruct (Ascii.eqb_spec (lower_char c) " ") as [_|Hne].
  - reflexivity.
  - rewrite lower_char_idem. destruct (Ascii.eqb_spec (lower_char c) " "); congruence.
Qed.

(** On texts of code points below 256, slug conversion works character by
    character and keeps the length; it sends "Hello World" to "hello-world"
    and "ALREADY-slug" to "already-slug", and converting a slug again gives
    the same slug. *)
Theorem input2slug_lower_hyphen_idempotent (s : string) :
  input2slug s = spec_slug s /\
  String.length (input2slug s) = String.length s /\
  input2slug "Hello World" = "hello-world" /\
  input2slug "ALREADY-slug" = "already-slug" /\
  input2slug (input2slug s) = input2slug s.
Proof.
  repeat split.
  - apply input2slug_spec_slug.
  - rewrite input2slug_spec_slug. induction s as [|c s IH]; [reflexivity|].
    cbn [spec_slug String.length]. now rewrite IH.
  - rewrite !input2slug_spec_slug. apply spec_slug_idem.
Qed.

Example input2slug_keeps_the_rest : input2slug "Hi,  there - Bob!" = "hi,--there---bob!".
Proof. reflexivity. Qed.

(** ** The validators *)

(** C1. The title and description validator accepts exactly the pairs with
    a non-empty title and a non-empty description of at most 280
    characters; otherwise it raises [ValueError] with the message of the
    first rule that fails, the title rule first, then the empty
    description, then the length. *)
Theorem validate_title_and_description_accepts_iff (title description : string) :
  (validate_title_and_description title description = Return tt <->
   title <> "" /\ description <> "" /\ String.length description <= 280) /\
  (title = "" ->
   validate_title_and_description title description =
   Raise (ValueError "Titel is verplicht")) /\
  (title <> "" -> description = "" ->
   validate_title_and_description title description =
   Raise (ValueError "Een korte beschrijving is verplicht")) /\
  (title <> "" -> description <> "" -> 280 < String.length description ->
   validate_title_and_description title description =
   Raise (ValueError "Er zijn maximaal 280 karakters toegestaan")).
Proof.
  unfold validate_title_and_description. cbn [truthy].
  rewrite !negb_involutive.
  destruct (String.eqb_spec title ""), (String.eqb_spec description ""),
    (Nat.ltb_spec 280 (String.length description));
    repeat split; intros;
    try reflexivity; try congruence; try lia;
    intuition (try congruence; try lia).
Qed.

Lemma validate_title_and_description_accepts_iff_witness :
  validate_title_and_description "Titel" "Beschrijving" = Return tt /\
  validate_title_and_description "" "Beschrijving" =
    Raise (ValueError "Titel is verplicht") /\
  validate_title_and_description "Titel" "" =
    Raise (ValueError "Een korte beschrijving is verplicht").
Proof.
  split; [|split].
  - apply (validate_title_and_description_accepts_iff "Titel" "Beschrijving").
    repeat split; [discriminate | discriminate | simpl; lia].
  - apply (validate_title_and_description_accepts_iff "" "Beschrijving").
    reflexivity.
  - apply (validate_title_and_description_accepts_iff "Titel" "").
    + discriminate.
    + reflexivity.
Defined.

Example validate_title_and_description_281 :
  validate_title_and_description "T" (String.concat "" (repeat "x" 281)) =
  Raise (ValueError "Er zijn maximaal 280 karakters toegestaan") /\
  validate_title_and_description "T" (String.concat "" (repeat "x" 280)) = Return tt.
Proof. split; vm_compute; reflexivity. Qed.

Example url_pattern_samples :
  map (Re.match_dollar url_pattern)
    ["example.com"; "https://www.kennishub.nl/topics/abc?x=1"; "a.bc.de.fg";
     "not a url"; "http://"; "EXAMPLE.com"; "a.b"; ""] =
  [true; true; true; false; false; false; false; false].
Proof. vm_compute. reflexivity. Qed.

(** Once the title, the url and the pattern tests have passed, the method
    reads [description], which no scope binds. *)
Lemma validate_link_and_title_outcomes (url title : string) :
  validate_link_and_title url title =
  if String.eqb title "" then Raise (ValueError "Een titel is verplicht.")
  else if String.eqb url "" then Raise (ValueError "Een bron is verplicht")
  else if Re.match_dollar url_pattern url then Raise (NameError "description")
  else Raise (ValueError "Vul een valide url in").
Proof.
  unfold validate_link_and_title, truthy.
  destruct (String.eqb title ""); [reflexivity|].
  destruct (String.eqb url ""); [reflexivity|].
  destruct (Re.match_dollar url_pattern url); reflexivity.
Qed.

(** C2. With a non-empty title and a url that matches the pattern, the link
    validator neither accepts nor raises the 180-character [ValueError]: its
    length test reads the name [description], which is not a parameter of
    the method, so the call ends in [NameError] whatever description the
    caller holds. *)
Theorem validate_link_and_title_description_unbound (url title : string) :
  title <> "" -> url <> "" -> Re.match_dollar url_pattern url = true ->
  validate_link_and_title url title = Raise (NameError "description").
Proof.
  intros Ht Hu Hm. rewrite validate_link_and_title_outcomes, Hm.
  destruct (String.eqb_spec title ""); [congruence|].
  destruct (String.eqb_spec url ""); [congruence|]. reflexivity.
Qed.

Lemma validate_link_and_title_description_unbound_witness :
  validate_link_and_title "example.com" "T" = Raise (NameError "description").
Proof.
  apply validate_link_and_title_description_unbound;
    [discriminate | discriminate | vm_compute; reflexivity].
Defined.

(** X3. Every path through the link validator ends in an exception, so
    [send_posts_replies] never gets to its request. *)
Lemma send_posts_replies_never_sends (self : KennisHubAPI)
    (token title description : string) (topic_id : Z) (url : string)
    (net : transport) :
  exists e, run (send_posts_replies self token title description topic_id url) net =
            (Raise e, []).
Proof.
  unfold send_posts_replies, run, mbind, io_bind, lift.
  rewrite validate_link_and_title_outcomes.
  destruct (String.eqb title ""); [eauto|].
  destruct (String.eqb url ""); [eauto|].
  destruct (Re.match_dollar url_pattern url); eauto.
Qed.

Example send_posts_replies_sample :
  run (send_posts_replies default_api "token" "T" "D" 1 "example.com")
      (fun _ => Answer {| status_code := 200; text := ""; decoded := None |}) =
  (Raise (NameError "description"), []).
Proof. vm_compute. reflexivity. Qed.

(** ** One exchange *)

Lemma run_send {A : Type} (rq : request) (k : response -> io A)
    (net : transport) (r : response) :
  net rq = Answer r -> run (send rq ≫= k) net = k r net [rq].
Proof. intros H. unfold run, mbind, io_bind, send. now rewrite H. Qed.

Lemma run_send_failure {A : Type} (rq : request) (k : response -> io A)
    (net : transport) (detail : string) :
  net rq = Failure detail ->
  run (send rq ≫= k) net = (Raise (ConnectionError detail), [rq]).
Proof. intros H. unfold run, mbind, io_bind, send. now rewrite H. Qed.

Lemma snd_run_send {A : Type} (rq : request) (k : response -> io A)
    (net : transport) :
  (forall r log, snd (k r net log) = log) ->
  snd (run (send rq ≫= k) net) = [rq].
Proof.
  intros Hk. unfold run, mbind, io_bind, send.
  destruct (net rq) as [r|detail]; [apply Hk | reflexivity].
Qed.

Lemma raise_for_status_error (r : response) :
  (400 <= status_code r < 600)%Z ->
  raise_for_status r = Raise (HTTPError (status_code r)).
Proof.
  intros [Hlo Hhi]. unfold raise_for_status.
  apply Z.leb_le in Hlo. apply Z.ltb_lt in Hhi. now rewrite Hlo, Hhi.
Qed.

Lemma raise_for_status_pass (r : response) :
  ~ (400 <= status_code r < 600)%Z -> raise_for_status r = Return tt.
Proof.
  intros H. unfold raise_for_status.
  destruct (Z.leb_spec 400 (status_code r)), (Z.ltb_spec (status_code r) 600);
    simpl; try reflexivity. lia.
Qed.

(** C5. With a password shorter than 8 characters [register_user] raises
    [RegistrationError] with a message that holds "minimaal 8 karakters",
    and no request has been issued, whatever the other arguments and the
    remote side are.  With 8 characters or more the request is built and
    sent, and no later [RegistrationError] is the one of the length test. *)
Theorem register_user_password_length (self : KennisHubAPI)
    (name email function password url : string) (net : transport) :
  (String.length password < 8 ->
   exists msg,
     run (register_user self name email function password url) net =
       (Raise (RegistrationError msg), []) /\
     contains "minimaal 8 karakters" msg = true) /\
  (8 <= String.length password ->
   snd (run (register_user self name email function password url) net) =
     [register_request self name email function password url] /\
   forall msg,
     fst (run (register_user self name email function password url) net) =
       Raise (RegistrationError msg) ->
     contains "minimaal 8 karakters" msg = false).
Proof.
  split; intros Hlen; unfold register_user.
  - apply Nat.ltb_lt in Hlen. rewrite Hlen. eexists. split; [reflexivity|].
    vm_compute. reflexivity.
  - apply Nat.ltb_ge in Hlen. rewrite Hlen.
    destruct (net (register_request self name email function password url))
      as [r|detail] eqn:Hnet.
    + rewrite (run_send _ _ _ _ Hnet). unfold mbind, io_bind, lift, raise, lift, mret, io_ret.
      unfold json, raise_for_status.
      destruct (status_code r =? 200)%Z.
      * destruct (decoded r) as [body|]; simpl; [|split; [reflexivity | intros msg; discriminate]].
        destruct body; simpl; try (split; [reflexivity | intros msg; discriminate]).
        destruct (truthy _); simpl; (split; [reflexivity|]); intros msg; try discriminate.
        intros [= <-]. vm_compute. reflexivity.
      * destruct (status_code r =? 401)%Z; simpl.
        -- split; [reflexivity|]. intros msg [= <-]. vm_compute. reflexivity.
        -- destruct (_ && _)%bool; simpl; (split; [reflexivity|]); intros msg; discriminate.
    + rewrite (run_send_failure _ _ _ _ Hnet). split; [reflexivity | discriminate].
Qed.

Lemma register_user_password_length_witness :
  (exists msg,
     run (register_user default_api "Naam" "a@b.nl" "rol" "1234567" "")
         (fun _ => Failure "offline") =
       (Raise (RegistrationError msg), []) /\
     contains "minimaal 8 karakters" msg = true) /\
  snd (run (register_user default_api "Naam" "a@b.nl" "rol" "12345678" "")
           (fun _ => Failure "offline")) =
    [register_request default_api "Naam" "a@b.nl" "rol" "12345678" ""].
Proof.
  split.
  - apply (register_user_password_length default_api "Naam" "a@b.nl" "rol" "1234567" "").
    simpl. lia.
  - apply (register_user_password_length default_api "Naam" "a@b.nl" "rol" "12345678" "").
    simpl. lia.
Defined.

Ltac run_reset Hnet :=
  unfold reset_password; rewrite (run_send _ _ _ _ Hnet);
  unfold mbind, io_bind, lift, raise, lift, mret, io_ret, json.

(** C6, amended.  On a 200 response whose body is a JSON object with a
    falsy status: a text message that holds the mark gives
    [PasswordError "Invalid email address"]; a text message without it, a
    falsy message or no message gives [PasswordError "Unknown error"].  A
    truthy status returns [None].  A status from 400 to 599 raises
    [HTTPError]; any other status than 200 returns [None] and leaves the
    body unread. *)
Theorem reset_password_outcomes (self : KennisHubAPI) (email : string)
    (net : transport) (r : response) :
  net (reset_password_request self email) = Answer r ->
  (forall d : gmap string pyval,
     status_code r = 200%Z -> decoded r = Some (PDict d) ->
     truthy (default PNone (d !! "status")) = false ->
     (forall s, d !! "message" = Some (PStr s) ->
                contains invalid_email_mark s = true ->
                fst (run (reset_password self email) net) =
                Raise (PasswordError "Invalid email address")) /\
     (forall s, d !! "message" = Some (PStr s) ->
                contains invalid_email_mark s = false ->
                fst (run (reset_password self email) net) =
                Raise (PasswordError "Unknown error")) /\
     (forall m, d !! "message" = Some m -> truthy m = false ->
                fst (run (reset_password self email) net) =
                Raise (PasswordError "Unknown error")) /\
     (d !! "message" = None ->
      fst (run (reset_password self email) net) =
      Raise (PasswordError "Unknown error"))) /\
  (forall d : gmap string pyval,
     status_code r = 200%Z -> decoded r = Some (PDict d) ->
     truthy (default PNone (d !! "status")) = true ->
     run (reset_password self email) net =
     (Return PNone, [reset_password_request self email])) /\
  ((400 <= status_code r < 600)%Z ->
   run (reset_password self email) net =
   (Raise (HTTPError (status_code r)), [reset_password_request self email])) /\
  (status_code r <> 200%Z -> ~ (400 <= status_code r < 600)%Z ->
   run (reset_password self email) net =
   (Return PNone, [reset_password_request self email])).
Proof.
  intros Hnet. split; [|split; [|split]].
  - intros d H200 Hd Hst.
    assert (Hrun : fst (run (reset_password self email) net) =
              match d !! "message" with
              | Some m =>
                  if truthy m then
                    match contains_str "The selected E-mailadres is invalid." m with
                    | Return true => Raise (PasswordError "Invalid email address")
                    | Return false => Raise (PasswordError "Unknown error")
                    | Raise e => Raise e
                    end
                  else Raise (PasswordError "Unknown error")
              | None => Raise (PasswordError "Unknown error")
              end).
    { run_reset Hnet. rewrite H200, Hd. simpl. rewrite Hst. simpl.
      destruct (d !! "message") as [m|]; simpl; [|reflexivity].
      destruct (truthy m); [|reflexivity].
      destruct (contains_str _ m) as [[]|e]; reflexivity. }
    rewrite Hrun. unfold invalid_email_mark. repeat split.
    + intros s -> Hc.
      destruct (String.eqb_spec s "") as [->|Hne]; [discriminate Hc|].
      simpl. destruct (String.eqb_spec s ""); [congruence|]. simpl. now rewrite Hc.
    + intros s -> Hc. simpl. rewrite Hc. now destruct (negb _).
    + intros m -> Hm. now rewrite Hm.
    + now intros ->.
  - intros d H200 Hd Hst. run_reset Hnet. rewrite H200, Hd. simpl. now rewrite Hst.
  - intros Herr. run_reset Hnet.
    destruct (Z.eqb_spec (status_code r) 200) as [E|_]; [lia|].
    now rewrite raise_for_status_error.
  - intros Hne Hok. run_reset Hnet.
    destruct (Z.eqb_spec (status_code r) 200) as [E|_]; [congruence|].
    now rewrite raise_for_status_pass.
Qed.

Lemma reset_password_outcomes_witness :
  fst (run (reset_password default_api "a@b.nl")
           (fun _ => Answer {| status_code := 200; text := "";
                               decoded := Some (PDict (list_to_map
                                 [("status", PBool false);
                                  ("message", PStr "The selected E-mailadres is invalid.")])) |})) =
    Raise (PasswordError "Invalid email address") /\
  run (reset_password default_api "a@b.nl")
      (fun _ => Answer {| status_code := 404; text := ""; decoded := None |}) =
    (Raise (HTTPError 404), [reset_password_request default_api "a@b.nl"]) /\
  run (reset_password default_api "a@b.nl")
      (fun _ => Answer {| status_code := 201; text := ""; decoded := None |}) =
    (Return PNone, [reset_password_request default_api "a@b.nl"]).
Proof.
  split; [|split].
  - destruct (reset_password_outcomes default_api "a@b.nl"
                (fun _ => Answer {| status_code := 200; text := "";
                                    decoded := Some (PDict (list_to_map
                                      [("status", PBool false);
                                       ("message", PStr "The selected E-mailadres is invalid.")])) |})
                _ eq_refl) as (Hfalsy & _).
    destruct (Hfalsy _ eq_refl eq_refl) as (Hmark & _); [vm_compute; reflexivity|].
    apply (Hmark "The selected E-mailadres is invalid."); vm_compute; reflexivity.
  - apply (proj1 (proj2 (proj2 (reset_password_outcomes default_api "a@b.nl"
                    (fun _ => Answer {| status_code := 404; text := ""; decoded := None |})
                    _ eq_refl)))).
    simpl. lia.
  - apply (proj2 (proj2 (proj2 (reset_password_outcomes default_api "a@b.nl"
                    (fun _ => Answer {| status_code := 201; text := ""; decoded := None |})
                    _ eq_refl)))); simpl; lia.
Defined.

(** C6, as stated, fails twice: a 201 response is a non-200 response and
    [reset_password] returns [None] on it; and on a 200 response with a
    falsy status and the message 7 it raises [TypeError], not
    [PasswordError]. *)
Lemma reset_password_claims_fail :
  ~ reset_password_non_200_raises /\ ~ reset_password_other_falsy_unknown.
Proof.
  split; intros H.
  - destruct (H default_api "a@b.nl"
                (fun _ => Answer {| status_code := 201; text := ""; decoded := None |})
                _ eq_refl) as [code Hcode]; [discriminate|].
    vm_compute in Hcode. discriminate Hcode.
  - pose (d := list_to_map [("status", PBool false); ("message", PInt 7)]
               : gmap string pyval).
    specialize (H default_api "a@b.nl"
                  (fun _ => Answer {| status_code := 200; text := "";
                                      decoded := Some (PDict d) |})
                  _ d eq_refl eq_refl eq_refl eq_refl).
    assert (Hrun : fst (run (reset_password default_api "a@b.nl")
                          (fun _ => Answer {| status_code := 200; text := "";
                                              decoded := Some (PDict d) |})) =
                   Raise TypeError) by (vm_compute; reflexivity).
    rewrite Hrun in H. 
    assert (Hd : forall s, d !! "message" = Some (PStr s) ->
                           contains invalid_email_mark s = false).
    { intros s Hs. vm_compute in Hs. discriminate Hs. }
    specialize (H Hd). discriminate H.
Qed.

(** C7. On every response with a status other than 200, [verify_email]
    raises [NameError]: the class [InvalidVerificationLink] it means to
    raise is bound nowhere. *)
Theorem verify_email_non_200_name_error (self : KennisHubAPI) (id : Z)
    (hash_value expires signature : string) (net : transport) (r : response) :
  net (verify_email_request self id hash_value expires signature) = Answer r ->
  status_code r <> 200%Z ->
  run (verify_email self id hash_value expires signature) net =
  (Raise (NameError "InvalidVerificationLink"),
   [verify_email_request self id hash_value expires signature]).
Proof.
  intros Hnet Hne. unfold verify_email. rewrite (run_send _ _ _ _ Hnet).
  destruct (Z.eqb_spec (status_code r) 200) as [E|_]; [congruence|]. reflexivity.
Qed.

Lemma verify_email_non_200_name_error_witness :
  run (verify_email default_api 92 "b0392e" "1677581044" "72451f")
      (fun _ => Answer {| status_code := 404; text := "Not Found"; decoded := None |}) =
  (Raise (NameError "InvalidVerificationLink"),
   [verify_email_request default_api 92 "b0392e" "1677581044" "72451f"]).
Proof.
  eapply verify_email_non_200_name_error; [reflexivity | simpl; lia].
Defined.

(** On a 200 response [verify_email] returns the decoded body as it is. *)
Lemma verify_email_200 (self : KennisHubAPI) (id : Z)
    (hash_value expires signature : string) (net : transport) (r : response)
    (body : pyval) :
  net (verify_email_request self id hash_value expires signature) = Answer r ->
  status_code r = 200%Z -> decoded r = Some body ->
  run (verify_email self id hash_value expires signature) net =
  (Return body, [verify_email_request self id hash_value expires signature]).
Proof.
  intros Hnet H200 Hbody. unfold verify_email. rewrite (run_send _ _ _ _ Hnet).
  rewrite H200. unfold mbind, io_bind, lift, json. simpl. now rewrite Hbody.
Qed.

(** C8. For every message, the empty one and the long ones too,
    [send_reply_comment] issues its request and never raises [ValueError];
    with the format "json" it returns the decoded body, otherwise the text
    of the response; the status code has no part in the outcome. *)
Theorem send_reply_comment_no_validation (self : KennisHubAPI)
    (token message : string) (post_id : Z) (net : transport) :
  snd (run (send_reply_comment self token message post_id) net) =
    [comment_create_request self token message post_id] /\
  (forall msg, fst (run (send_reply_comment self token message post_id) net) <>
               Raise (ValueError msg)) /\
  forall r : response,
    net (comment_create_request self token message post_id) = Answer r ->
    (format self = "json" -> forall body, decoded r = Some body ->
     fst (run (send_reply_comment self token message post_id) net) = Return body) /\
    (format self <> "json" ->
     fst (run (send_reply_comment self token message post_id) net) =
     Return (PStr (text r))) /\
    (forall r' : response, text r' = text r -> decoded r' = decoded r ->
     fst (run (send_reply_comment self token message post_id) (fun _ => Answer r')) =
     fst (run (send_reply_comment self token message post_id) net)).
Proof.
  split; [|split].
  - unfold send_reply_comment. apply snd_run_send. intros r log.
    destruct (String.eqb _ _); [|reflexivity].
    unfold lift. reflexivity.
  - intros msg. unfold send_reply_comment.
    destruct (net (comment_create_request self token message post_id))
      as [r|detail] eqn:Hnet.
    + rewrite (run_send _ _ _ _ Hnet). unfold lift, json, mret, io_ret.
      destruct (String.eqb _ _); [|discriminate].
      destruct (decoded r); discriminate.
    + rewrite (run_send_failure _ _ _ _ Hnet). discriminate.
  - intros r Hnet. unfold send_reply_comment. rewrite (run_send _ _ _ _ Hnet).
    repeat split.
    + intros -> body Hbody. simpl. unfold lift, json. now rewrite Hbody.
    + intros Hfmt. destruct (String.eqb_spec (format self) "json"); [congruence|].
      reflexivity.
    + intros r' Ht Hd. rewrite (run_send _ _ (fun _ => Answer r') r' eq_refl).
      destruct (String.eqb _ _); unfold lift, json, mret, io_ret; simpl.
      * now rewrite Hd.
      * now rewrite Ht.
Qed.

Lemma send_reply_comment_no_validation_witness :
  validate_message "" = Raise (ValueError "Een bericht is verplicht") /\
  fst (run (send_reply_comment default_api "token" "" 7)
           (fun _ => Answer {| status_code := 422; text := "{}";
                               decoded := Some (PDict ∅) |})) =
    Return (PDict ∅).
Proof.
  split; [reflexivity|].
  destruct (send_reply_comment_no_validation default_api "token" "" 7
              (fun _ => Answer {| status_code := 422; text := "{}";
                                  decoded := Some (PDict ∅) |}))
    as (_ & _ & Hout).
  destruct (Hout _ eq_refl) as (Hjson & _).
  apply Hjson; reflexivity.
Defined.

(** ** The projections *)

Lemma for_each_total {A B : Type} (f : A -> result B) (P : A -> Prop)
    (R : A -> B -> Prop) :
  (forall x, P x -> exists y, f x = Return y /\ R x y) ->
  forall xs, Forall P xs -> exists ys, for_each f xs = Return ys /\ Forall2 R xs ys.
Proof.
  intros Hf xs Hxs. induction Hxs as [|x xs Hx _ (ys & Hys & HR)].
  - exists []. split; [reflexivity | constructor].
  - destruct (Hf x Hx) as (y & Hy & Hxy). exists (y :: ys). split.
    + cbn [for_each]. rewrite Hy, Hys. reflexivity.
    + now constructor.
Qed.

Ltac field_cases H :=
  repeat (destruct H as [[= <- <-]|H]; [reflexivity|]); destruct H.

Lemma topics_info_record_eq (p : gmap string pyval) :
  is_record (PDict p) = true ->
  topics_info (PDict p) =
  Return (PDict (list_to_map
    [("topic_id", default PNone (p !! "id"));
     ("user_id", default PNone (p !! "user_id"));
     ("title", default PNone (p !! "title"));
     ("topic_slug", default PNone (p !! "slug"));
     ("description", default PNone (p !! "description"));
     ("topic_created_at", default PNone (p !! "created_at"));
     ("topic_updated_at", default PNone (p !! "updated_at"));
     ("topic_human_readable_created_at",
      default PNone (p !! "human_readable_created_at"));
     ("user_name", default PNone (user_of p !! "name"));
     ("user_slug", default PNone (user_of p !! "slug"))])).
Proof.
  unfold is_record, topics_info, user_of, get. intros Hrec.
  cbn [mbind result_bind Py.bind].
  destruct (p !! "user") as [[]|]; try discriminate Hrec; reflexivity.
Qed.

Lemma post_info_record_eq (p : gmap string pyval) :
  is_record (PDict p) = true ->
  post_info (PDict p) =
  Return (PDict (list_to_map
    [("title", default PNone (p !! "title"));
     ("description", default PNone (p !! "description"));
     ("url", default PNone (p !! "url"));
     ("post_id", default PNone (p !! "id"));
     ("post_date", default PNone (p !! "human_readable_created_at"));
     ("user_name", default PNone (user_of p !! "name"));
     ("user_slug", default PNone (user_of p !! "slug"));
     ("upvotes_count", default PNone (p !! "upvotes_count"));
     ("comments_count", default PNone (p !! "comments_count"));
     ("post_created_at", default PNone (user_of p !! "created_at"));
     ("post_updated_at", default PNone (user_of p !! "updated_at"))])).
Proof.
  unfold is_record, post_info, user_of, get. intros Hrec.
  cbn [mbind result_bind Py.bind].
  destruct (p !! "user") as [[]|]; try discriminate Hrec; reflexivity.
Qed.

Lemma topics_info_record (v : pyval) :
  is_record v = true ->
  exists out, topics_info v = Return out /\
              projects topic_fields topic_user_fields v out.
Proof.
  destruct v as [| | | | | |p]; try discriminate. intros Hrec.
  eexists. split; [now apply topics_info_record_eq|].
  eexists p, _. repeat split; intros o k Hin; cbn [In topic_fields topic_user_fields] in Hin;
    field_cases Hin.
Qed.

Lemma post_info_record (v : pyval) :
  is_record v = true ->
  exists out, post_info v = Return out /\
              projects post_fields post_user_fields v out.
Proof.
  destruct v as [| | | | | |p]; try discriminate. intros Hrec.
  eexists. split; [now apply post_info_record_eq|].
  eexists p, _. repeat split; intros o k Hin; cbn [In post_fields post_user_fields] in Hin;
    field_cases Hin.
Qed.

(** What [get_topics_list] makes of the response it got. *)
Lemma get_topics_list_run (self : KennisHubAPI) (token sort_order : string)
    (net : transport) (r : response) :
  net (topics_list_request self token sort_order) = Answer r ->
  run (get_topics_list self token sort_order) net =
  (_ ← raise_for_status r;
   body ← json r;
   data ← get body "data" (PList []);
   topics ← iter data;
   selected_info ← for_each topics_info topics;
   Return (PList selected_info),
   [topics_list_request self token sort_order]).
Proof.
  intros Hnet. unfold get_topics_list. rewrite (run_send _ _ _ _ Hnet).
  unfold mbind, io_bind, result_bind, lift, mret, io_ret.
  destruct (raise_for_status r) as [[]|e]; [|reflexivity]. cbn [Py.bind].
  destruct (json r) as [body|e]; [|reflexivity]. cbn [Py.bind].
  destruct (get body "data" (PList [])) as [data|e]; [|reflexivity]. cbn [Py.bind].
  destruct (iter data) as [topics|e]; [|reflexivity]. cbn [Py.bind].
  destruct (for_each topics_info topics); reflexivity.
Qed.

Lemma get_topics_replies_run (self : KennisHubAPI)
    (token input_topic sort_by sort_order : string) (net : transport) (r : response) :
  net (posts_list_request self token input_topic sort_by sort_order) = Answer r ->
  run (get_topics_replies self token input_topic sort_by sort_order) net =
  (body ← json r;
   data ← get body "data" (PList []);
   posts ← iter data;
   selected_info ← for_each post_info posts;
   Return (PList selected_info),
   [posts_list_request self token input_topic sort_by sort_order]).
Proof.
  intros Hnet. unfold get_topics_replies. rewrite (run_send _ _ _ _ Hnet).
  unfold mbind, io_bind, result_bind, lift, mret, io_ret.
  destruct (json r) as [body|e]; [|reflexivity]. cbn [Py.bind].
  destruct (get body "data" (PList [])) as [data|e]; [|reflexivity]. cbn [Py.bind].
  destruct (iter data) as [posts|e]; [|reflexivity]. cbn [Py.bind].
  destruct (for_each post_info posts); reflexivity.
Qed.

(** C4, as stated, fails: 300 is not a 2xx status, and [get_topics_list]
    raises nothing on it. *)
Lemma get_topics_list_300_not_raised : ~ get_topics_list_non_2xx_raises.
Proof.
  intros H.
  destruct (H default_api "token" "desc"
              (fun _ => Answer {| status_code := 300; text := "";
                                  decoded := Some example_body |})
              _ eq_refl) as [code Hcode].
  - simpl. lia.
  - vm_compute in Hcode. discriminate Hcode.
Qed.

(** C4, amended.  On a 200 response whose body has the example topic as
    the only element of [data], [get_topics_list] returns exactly the
    example output; on a status from 400 to 599 it raises [HTTPError]
    before it reads the body; on any other status it projects the body as
    on 200. *)
Theorem get_topics_list_example_and_errors (self : KennisHubAPI)
    (token sort_order : string) (net : transport) (r : response) :
  net (topics_list_request self token sort_order) = Answer r ->
  (status_code r = 200%Z -> decoded r = Some example_body ->
   run (get_topics_list self token sort_order) net =
   (Return example_output, [topics_list_request self token sort_order])) /\
  ((400 <= status_code r < 600)%Z ->
   run (get_topics_list self token sort_order) net =
   (Raise (HTTPError (status_code r)), [topics_list_request self token sort_order])) /\
  (~ (400 <= status_code r < 600)%Z -> decoded r = Some example_body ->
   run (get_topics_list self token sort_order) net =
   (Return example_output, [topics_list_request self token sort_order])).
Proof.
  intros Hnet. rewrite (get_topics_list_run _ _ _ _ _ Hnet).
  assert (Hpass : ~ (400 <= status_code r < 600)%Z -> decoded r = Some example_body ->
            (_ ← raise_for_status r;
             body ← json r;
             data ← get body "data" (PList []);
             topics ← iter data;
             selected_info ← for_each topics_info topics;
             Return (PList selected_info)) = Return example_output).
  { intros Hok Hbody. rewrite (raise_for_status_pass _ Hok). unfold json.
    rewrite Hbody. vm_compute. reflexivity. }
  split; [|split].
  - intros H200 Hbody. rewrite Hpass; [reflexivity | lia | assumption].
  - intros Herr. now rewrite (raise_for_status_error _ Herr).
  - intros Hok Hbody. now rewrite Hpass.
Qed.

Lemma get_topics_list_example_and_errors_witness :
  run (get_topics_list default_api "token" "desc")
      (fun _ => Answer {| status_code := 200; text := "";
                          decoded := Some example_body |}) =
    (Return example_output, [topics_list_request default_api "token" "desc"]) /\
  run (get_topics_list default_api "token" "desc")
      (fun _ => Answer {| status_code := 404; text := ""; decoded := None |}) =
    (Raise (HTTPError 404), [topics_list_request default_api "token" "desc"]).
Proof.
  split.
  - apply (proj1 (get_topics_list_example_and_errors default_api "token" "desc"
                    (fun _ => Answer {| status_code := 200; text := "";
                                        decoded := Some example_body |})
                    _ eq_refl)); reflexivity.
  - apply (proj1 (proj2 (get_topics_list_example_and_errors default_api "token" "desc"
                    (fun _ => Answer {| status_code := 404; text := "";
                                        decoded := None |})
                    _ eq_refl))). simpl. lia.
Defined.

(** C10, as stated, fails: on a 200 response whose body is the JSON object
    [{"data": [{"title": "T", "user": null}]}] both projections raise
    [AttributeError]. *)
Lemma projections_not_total : ~ get_topics_list_total /\ ~ get_topics_replies_total.
Proof.
  pose (d := list_to_map
               [("data", PList [PDict (list_to_map [("title", PStr "T"); ("user", PNone)])])]
             : gmap string pyval).
  pose (net := (fun _ => Answer {| status_code := 200; text := "";
                                   decoded := Some (PDict d) |}) : transport).
  split; intros H.
  - destruct (H default_api "token" "desc" net _ d eq_refl) as [v Hv];
      [simpl; lia | reflexivity |].
    vm_compute in Hv. discriminate Hv.
  - destruct (H default_api "token" "Topic" "created_at" "desc" net _ d eq_refl)
      as [v Hv]; [simpl; lia | reflexivity |].
    vm_compute in Hv. discriminate Hv.
Qed.

(** Shapes on which the projections raise. *)
Example projection_errors :
  let answer body := (fun _ => Answer {| status_code := 200; text := "";
                                         decoded := Some body |}) : transport in
  let no_list := PDict (list_to_map [("data", PNone)]) in
  let no_object := PDict (list_to_map [("data", PList [PStr "topic"])]) in
  let no_user := PDict (list_to_map [("data", PList [PDict (list_to_map [("user", PNone)])])]) in
  fst (run (get_topics_list default_api "token" "desc") (answer no_list)) = Raise TypeError /\
  fst (run (get_topics_list default_api "token" "desc") (answer no_object)) = Raise AttributeError /\
  fst (run (get_topics_list default_api "token" "desc") (answer no_user)) = Raise AttributeError /\
  fst (run (get_topics_replies default_api "token" "Topic" "created_at" "desc")
           (answer no_list)) = Raise TypeError.
Proof. vm_compute. repeat split. Qed.

(** C10, amended.  On a 2xx response whose body is a JSON object: without
    a [data] key both projections return the empty list; and when [data] is
    a list of JSON objects whose [user], where present, is a JSON object,
    both return one record for each element, with [None] under every output
    key whose source key is missing from the record, from its user, or whose
    user is missing; no exception is raised. *)
Theorem projections_total_on_records (self : KennisHubAPI)
    (token input_topic sort_by sort_order : string) (net : transport)
    (r : response) (d : gmap string pyval) :
  net (topics_list_request self token sort_order) = Answer r ->
  net (posts_list_request self token input_topic sort_by sort_order) = Answer r ->
  (200 <= status_code r < 300)%Z ->
  decoded r = Some (PDict d) ->
  (d !! "data" = None ->
   fst (run (get_topics_list self token sort_order) net) = Return (PList []) /\
   fst (run (get_topics_replies self token input_topic sort_by sort_order) net) =
     Return (PList [])) /\
  (forall records : list pyval,
     d !! "data" = Some (PList records) ->
     Forall (fun v => is_record v = true) records ->
     exists topics posts : list pyval,
       fst (run (get_topics_list self token sort_order) net) = Return (PList topics) /\
       fst (run (get_topics_replies self token input_topic sort_by sort_order) net) =
         Return (PList posts) /\
       Forall2 (projects topic_fields topic_user_fields) records topics /\
       Forall2 (projects post_fields post_user_fields) records posts).
Proof.
  intros Hlist Hposts H2xx Hbody.
  rewrite (get_topics_list_run _ _ _ _ _ Hlist).
  rewrite (get_topics_replies_run _ _ _ _ _ _ _ Hposts).
  rewrite raise_for_status_pass by lia. unfold json. rewrite Hbody.
  cbn [fst mbind result_bind Py.bind get]. split.
  - intros ->. split; reflexivity.
  - intros records -> Hrecords.
    destruct (for_each_total topics_info _ _ topics_info_record records Hrecords)
      as (topics & Ht & Htopics).
    destruct (for_each_total post_info _ _ post_info_record records Hrecords)
      as (posts & Hp & Hpostsok).
    exists topics, posts. cbn. rewrite Ht, Hp. repeat split; assumption.
Qed.

Lemma projections_total_on_records_witness :
  let net := (fun _ => Answer {| status_code := 200; text := "";
                                 decoded := Some (PDict (list_to_map
                                   [("data", PList [PDict ∅])])) |}) : transport in
  exists topics posts : list pyval,
    fst (run (get_topics_list default_api "token" "desc") net) = Return (PList topics) /\
    fst (run (get_topics_replies default_api "token" "Topic" "created_at" "desc") net) =
      Return (PList posts) /\
    Forall2 (projects topic_fields topic_user_fields) [PDict ∅] topics /\
    Forall2 (projects post_fields post_user_fields) [PDict ∅] posts.
Proof.
  intros net.
  destruct (projections_total_on_records default_api "token" "Topic" "created_at" "desc"
              net _ (list_to_map [("data", PList [PDict ∅])]) eq_refl eq_refl)
    as (_ & Hrecords); [simpl; lia | reflexivity |].
  apply Hrecords; [vm_compute; reflexivity|].
  repeat constructor.
Defined.

(** [post_created_at] and [post_updated_at] are read from the embedded
    user, whatever the post itself has under [created_at] and
    [updated_at]. *)
Lemma post_info_dates_from_user (p : gmap string pyval) :
  is_record (PDict p) = true ->
  exists q : gmap string pyval,
    post_info (PDict p) = Return (PDict q) /\
    q !! "post_created_at" = Some (default PNone (user_of p !! "created_at")) /\
    q !! "post_updated_at" = Some (default PNone (user_of p !! "updated_at")).
Proof.
  intros Hrec. eexists. split; [now apply post_info_record_eq|].
  split; reflexivity.
Qed.

(** C3. For a post created at "post-c" by a user created at "user-c",
    [get_topics_replies] puts the dates of the user under [post_created_at]
    and [post_updated_at], not those of the post. *)
Theorem get_topics_replies_dates_of_the_user :
  fst (run (get_topics_replies default_api "token" "Some Topic" "created_at" "desc")
           (fun _ => Answer {| status_code := 200; text := "";
                               decoded := Some (PDict (list_to_map
                                            [("data", PList [dated_post])])) |})) =
  Return (PList [PDict (list_to_map
    [("title", PStr "T"); ("description", PNone); ("url", PNone);
     ("post_id", PInt 5); ("post_date", PNone);
     ("user_name", PStr "A"); ("user_slug", PStr "a");
     ("upvotes_count", PNone); ("comments_count", PNone);
     ("post_created_at", PStr "user-c"); ("post_updated_at", PStr "user-u")])]).
Proof. vm_compute. reflexivity. Qed.

(** ** More on the validators *)

(** X1. The message validator accepts exactly the non-empty messages of at
    most 144 characters; an empty message gets "Een bericht is verplicht",
    a longer one "Een bericht mag maximaal 144 karakters zijn". *)
Theorem validate_message_accepts_iff (message : string) :
  (validate_message message = Return tt <->
   message <> "" /\ String.length message <= 144) /\
  (message = "" ->
   validate_message message = Raise (ValueError "Een bericht is verplicht")) /\
  (message <> "" -> 144 < String.length message ->
   validate_message message =
   Raise (ValueError "Een bericht mag maximaal 144 karakters zijn")).
Proof.
  unfold validate_message. cbn [truthy]. rewrite negb_involutive.
  destruct (String.eqb_spec message ""),
    (Nat.ltb_spec 144 (String.length message));
    repeat split; intros;
    try reflexivity; try congruence; try lia;
    intuition (try congruence; try lia).
Qed.

(** X2. The link validator accepts no input at all; before its last test
    it rejects, in this order, an empty title, an empty url and a url that
    does not match the pattern, each with its own message. *)
Theorem validate_link_and_title_never_accepts (url title : string) :
  validate_link_and_title url title <> Return tt /\
  (title = "" ->
   validate_link_and_title url title = Raise (ValueError "Een titel is verplicht.")) /\
  (title <> "" -> url = "" ->
   validate_link_and_title url title = Raise (ValueError "Een bron is verplicht")) /\
  (title <> "" -> url <> "" -> Re.match_dollar url_pattern url = false ->
   validate_link_and_title url title = Raise (ValueError "Vul een valide url in")).
Proof.
  unfold validate_link_and_title. cbn [truthy]. rewrite !negb_involutive.
  destruct (String.eqb_spec title ""), (String.eqb_spec url ""),
    (Re.match_dollar url_pattern url);
    repeat split; intros; try reflexivity; try congruence; try discriminate.
Qed.

(** ** What the url pattern asks of a url *)

Lemma occurs_app (c : ascii) (s1 s2 : string) :
  occurs c (s1 ++ s2) = occurs c s1 || occurs c s2.
Proof.
  induction s1 as [|a s1 IH]; [reflexivity|].
  change (String a s1 ++ s2) with (String a (s1 ++ s2)).
  cbn [occurs]. rewrite IH. apply orb_assoc.
Qed.

Lemma in_all_chars (a : ascii) : In a all_chars.
Proof.
  unfold all_chars. rewrite <- (ascii_nat_embedding a).
  apply in_map. apply in_seq. pose proof (nat_ascii_bounded a). lia.
Qed.

Lemma only_char_sound (c a : ascii) (p : ascii -> bool) :
  only_char c p = true -> p a = true -> a = c.
Proof.
  unfold only_char. rewrite forallb_forall. intros H Hp.
  specialize (H a (in_all_chars a)). rewrite Hp in H. now apply Ascii.eqb_eq.
Qed.

Lemma must_contain_sound (c : ascii) (r : Re.regex) (s : string) :
  Re.lang r s -> must_contain c r = true -> occurs c s = true.
Proof.
  induction 1 as [|p a Hp|r1 r2 s1 s2 H1 IH1 H2 IH2|r1 r2 s H IH|r1 r2 s H IH
                 |r|r s1 s2 H1 IH1 H2 IH2]; cbn [must_contain]; intros Hc;
    try discriminate.
  - rewrite (only_char_sound c a p Hc Hp). cbn. now rewrite Ascii.eqb_refl.
  - rewrite occurs_app. apply orb_true_iff in Hc as [Hc|Hc];
      [rewrite (IH1 Hc) | rewrite (IH2 Hc)]; [reflexivity | apply orb_true_r].
  - apply andb_true_iff in Hc as [Hc _]. auto.
  - apply andb_true_iff in Hc as [_ Hc]. auto.
Qed.

Lemma is_void_sound (r : Re.regex) (s : string) :
  is_void r = true -> Re.matches r s = false.
Proof.
  intros Hv. destruct (Re.matches r s) eqn:Hm; [|reflexivity].
  apply matches_lang in Hm. exfalso.
  induction Hm as [|p a Hp|r1 r2 s1 s2 H1 IH1 H2 IH2|r1 r2 s H IH|r1 r2 s H IH
                  |r|r s1 s2 H1 IH1 H2 IH2]; cbn [is_void] in Hv;
    try discriminate.
  - apply orb_true_iff in Hv as [Hv|Hv]; auto.
  - apply andb_true_iff in Hv as [Hv _]. auto.
  - apply andb_true_iff in Hv as [_ Hv]. auto.
Qed.

(** X4. A url without a dot never passes the pattern: with a non-empty
    title the validator answers "Vul een valide url in". *)
Theorem url_without_dot_rejected (url title : string) :
  title <> "" -> url <> "" -> occurs "." url = false ->
  validate_link_and_title url title = Raise (ValueError "Vul een valide url in").
Proof.
  intros Ht Hu Hdot. rewrite validate_link_and_title_outcomes.
  destruct (String.eqb_spec title ""); [congruence|].
  destruct (String.eqb_spec url ""); [congruence|].
  destruct (Re.match_dollar url_pattern url) eqn:Hm; [|reflexivity].
  apply match_dollar_lang in Hm as [Hm|(p & -> & Hm)].
  - apply (must_contain_sound ".") in Hm; [congruence | vm_compute; reflexivity].
  - apply (must_contain_sound ".") in Hm; [|vm_compute; reflexivity].
    rewrite occurs_app, Hm in Hdot. discriminate.
Qed.

Lemma url_without_dot_rejected_witness :
  validate_link_and_title "localhost" "Bron" =
  Raise (ValueError "Vul een valide url in").
Proof.
  apply url_without_dot_rejected; [discriminate | discriminate | reflexivity].
Defined.

(** X5. A url has to start with a lower-case letter, a digit or a hyphen:
    any other first character, a capital letter for one, gets "Vul een
    valide url in". *)
Theorem url_first_character (title : string) (c : ascii) (rest : string) :
  title <> "" -> host_char c = false ->
  validate_link_and_title (String c rest) title =
  Raise (ValueError "Vul een valide url in").
Proof.
  intros Ht Hc. rewrite validate_link_and_title_outcomes.
  destruct (String.eqb_spec title ""); [congruence|].
  cbn [String.eqb].
  assert (Hm : Re.match_dollar url_pattern (String c rest) = false).
  { unfold Re.match_dollar. cbn [Re.matches]. apply is_void_sound.
    destruct c as [[] [] [] [] [] [] [] []];
      try discriminate Hc; vm_compute; reflexivity. }
  now rewrite Hm.
Qed.

Lemma url_first_character_witness :
  validate_link_and_title "Example.com" "Bron" =
  Raise (ValueError "Vul een valide url in").
Proof.
  apply (url_first_character "Bron" "E" "xample.com"); [discriminate | reflexivity].
Defined.

Lemma validate_message_accepts_iff_witness :
  validate_message "Hallo" = Return tt /\
  validate_message "" = Raise (ValueError "Een bericht is verplicht").
Proof.
  split.
  - apply (validate_message_accepts_iff "Hallo"). split; [discriminate | simpl; lia].
  - apply (validate_message_accepts_iff ""). reflexivity.
Defined.

Lemma validate_link_and_title_never_accepts_witness :
  validate_link_and_title "not a url" "Bron" =
  Raise (ValueError "Vul een valide url in").
Proof.
  apply (validate_link_and_title_never_accepts "not a url" "Bron");
    [discriminate | discriminate | vm_compute; reflexivity].
Defined.

(** ** More on the slug *)

Lemma occurs_spec_slug (c : ascii) (s : string) :
  occurs c (spec_slug s) = true -> c <> " "%char /\ capital c = false.
Proof.
  induction s as [|a s IH]; [discriminate|].
  cbn [spec_slug occurs]. intros H. apply orb_true_iff in H as [H|H]; [|auto].
  apply Ascii.eqb_eq in H. subst c. unfold capital.
  destruct (Ascii.eqb_spec (lower_char a) " ") as [E|E].
  - split; [discriminate | reflexivity].
  - split; [assumption|]. now rewrite lower_char_idem, Ascii.eqb_refl.
Qed.

(** On texts of code points below 256, a slug holds no space and no
    character that [lower] would still change. *)
Theorem input2slug_no_space_no_capital (s : string) (c : ascii) :
  occurs c (input2slug s) = true -> c <> " "%char /\ lower_char c = c.
Proof.
  rewrite input2slug_spec_slug. intros H.
  destruct (occurs_spec_slug c s H) as [Hsp Hcap]. split; [assumption|].
  unfold capital in Hcap. apply negb_false_iff in Hcap. now apply Ascii.eqb_eq.
Qed.

Lemma input2slug_no_space_no_capital_witness :
  occurs "w" (input2slug "Hello World") = true /\
  "w"%char <> " "%char /\ lower_char "w" = "w"%char.
Proof.
  split; [reflexivity|].
  apply (input2slug_no_space_no_capital "Hello World" "w"). reflexivity.
Defined.

(** On texts of code points below 256, the inputs that are their own slug
    are exactly those without a space and without a character that [lower]
    changes. *)
Theorem input2slug_fixed_point (s : string) :
  input2slug s = s <->
  forall c, occurs c s = true -> c <> " "%char /\ lower_char c = c.
Proof.
  split.
  - intros E c Hc. rewrite <- E, input2slug_spec_slug in Hc.
    destruct (occurs_spec_slug c s Hc) as [Hsp Hcap]. split; [assumption|].
    unfold capital in Hcap. apply negb_false_iff in Hcap. now apply Ascii.eqb_eq.
  - rewrite input2slug_spec_slug. induction s as [|a s IH]; [reflexivity|].
    intros H. cbn [spec_slug].
    destruct (H a) as [Hsp Hlow]; [cbn; now rewrite Ascii.eqb_refl|].
    rewrite Hlow. destruct (Ascii.eqb_spec a " "); [congruence|].
    f_equal. apply IH. intros c Hc. apply H. cbn [occurs]. rewrite Hc.
    apply orb_true_r.
Qed.

(** ** Substrings *)

Lemma prefix_app (n b : string) : String.prefix n (n ++ b) = true.
Proof.
  induction n as [|a n IH]; [now destruct b|].
  change (String a n ++ b) with (String a (n ++ b)). cbn [String.prefix].
  destruct (ascii_dec a a); [assumption | congruence].
Qed.

Lemma prefix_split (n h : string) :
  String.prefix n h = true -> exists b, h = n ++ b.
Proof.
  revert h. induction n as [|a n IH]; intros h H.
  - exists h. reflexivity.
  - destruct h as [|c h]; [discriminate|]. cbn [String.prefix] in H.
    destruct (ascii_dec a c) as [->|]; [|discriminate].
    destruct (IH h H) as [b ->]. exists b. reflexivity.
Qed.

Lemma contains_split (n h : string) :
  contains n h = true <-> exists a b, h = a ++ n ++ b.
Proof.
  split.
  - induction h as [|c h IH]; cbn [contains]; intros H.
    + rewrite orb_false_r in H. apply prefix_split in H as [b ->].
      exists "", b. reflexivity.
    + apply orb_true_iff in H as [H|H].
      * apply prefix_split in H as [b ->]. exists "", b. reflexivity.
      * destruct (IH H) as (a & b & ->). exists (String c a), b. reflexivity.
  - intros (a & b & ->). induction a as [|c a IH].
    + change ("" ++ n ++ b) with (n ++ b).
      destruct (n ++ b) eqn:E; cbn [contains]; rewrite <- E, prefix_app; reflexivity.
    + change (String c a ++ n ++ b) with (String c (a ++ n ++ b)).
      cbn [contains]. rewrite IH. apply orb_true_r.
Qed.

(** ** The operations that check the status *)

Ltac answered Hnet :=
  rewrite (run_send _ _ _ _ Hnet);
  unfold mbind, io_bind, lift, raise, lift, mret, io_ret, json, raise_for_status.

(** X8. [login_user] raises [LoginError] exactly on a 200 response whose
    body is a JSON object with a falsy or missing [status], and then with
    the one message "Onjuiste gebruikersnaam of wachtwoord". *)
Theorem login_user_login_error_iff (self : KennisHubAPI) (email password : string)
    (net : transport) (r : response) :
  net (login_request self email password) = Answer r ->
  ((exists msg, fst (run (login_user self email password) net) =
                Raise (LoginError msg)) <->
   status_code r = 200%Z /\
   exists d, decoded r = Some (PDict d) /\
             truthy (default PNone (d !! "status")) = false) /\
  (forall msg, fst (run (login_user self email password) net) =
               Raise (LoginError msg) ->
               msg = "Onjuiste gebruikersnaam of wachtwoord").
Proof.
  intros Hnet. unfold login_user. answered Hnet.
  destruct (Z.eqb_spec (status_code r) 200) as [E|E].
  - destruct (decoded r) as [[| | | | | |d]|]; cbn;
      try (split; [split; [intros [msg H]; discriminate H
                          | intros (_ & d' & H & _); discriminate H]
                  | intros msg H; discriminate H]).
    destruct (truthy (default PNone (d !! "status"))) eqn:Ht; cbn.
    + split; [split; [intros [msg H]; discriminate H
                     | intros (_ & d' & [= <-] & H); congruence]
             | intros msg H; discriminate H].
    + split; [split; [intros _; eauto | intros _; eauto]
             | intros msg [= <-]; reflexivity].
  - split; [split; [intros [msg H] | intros [H _]; congruence] | intros msg H];
      destruct (_ && _)%bool; discriminate H.
Qed.

Lemma login_user_login_error_iff_witness :
  exists msg,
    fst (run (login_user default_api "a@b.nl" "geheim")
             (fun _ => Answer {| status_code := 200; text := "";
                                 decoded := Some (PDict ∅) |})) =
    Raise (LoginError msg).
Proof.
  apply (login_user_login_error_iff default_api "a@b.nl" "geheim"
           (fun _ => Answer {| status_code := 200; text := "";
                               decoded := Some (PDict ∅) |}) _ eq_refl).
  split; [reflexivity|]. exists ∅. split; reflexivity.
Defined.

(** X9. With a password of 8 characters or more, [register_user] raises
    "Wachtwoord is verplicht." exactly on status 401, whatever the body; the
    retry message exactly on a 200 response whose JSON object has a falsy or
    missing [status]; and [HTTPError] exactly on the other statuses from 400
    to 599. *)
Theorem register_user_responses (self : KennisHubAPI)
    (name email function password url : string) (net : transport) (r : response) :
  8 <= String.length password ->
  net (register_request self name email function password url) = Answer r ->
  (fst (run (register_user self name email function password url) net) =
     Raise (RegistrationError "Wachtwoord is verplicht.") <->
   status_code r = 401%Z) /\
  (fst (run (register_user self name email function password url) net) =
     Raise (RegistrationError "Er is iets mis gegaan met registreren, probeer het later nog eens. Of probeer je wachtwoord te resetten.") <->
   status_code r = 200%Z /\
   exists d, decoded r = Some (PDict d) /\
             truthy (default PNone (d !! "status")) = false) /\
  ((exists code, fst (run (register_user self name email function password url) net) =
                 Raise (HTTPError code)) <->
   (400 <= status_code r < 600)%Z /\ status_code r <> 401%Z).
Proof.
  intros Hlen Hnet. unfold register_user.
  apply Nat.ltb_ge in Hlen. rewrite Hlen. answered Hnet.
  destruct (Z.eqb_spec (status_code r) 200) as [E|E].
  - rewrite E.
    destruct (decoded r) as [[| | | | | |d]|]; cbn;
      try (split; [split; [discriminate | discriminate]
                  |split; [split; [discriminate | intros (_ & d' & H & _); discriminate H]
                          |split; [intros [code H]; discriminate H | lia]]]).
    destruct (truthy (default PNone (d !! "status"))) eqn:Ht; cbn.
    + split; [split; [discriminate | discriminate]
             |split; [split; [discriminate | intros (_ & d' & [= <-] & H); congruence]
                     |split; [intros [code H]; discriminate H | lia]]].
    + split; [split; [discriminate | discriminate]
             |split; [split; [eauto | reflexivity]
                     |split; [intros [code H]; discriminate H | lia]]].
  - destruct (Z.eqb_spec (status_code r) 401) as [E1|E1].
    + split; [split; [intros _; assumption | reflexivity]
             |split; [split; [discriminate | intros [H _]; congruence]
                     |split; [intros [code H]; discriminate H | intros [_ H]; congruence]]].
    + destruct (Z.leb_spec 400 (status_code r)) as [Hlo|Hlo],
        (Z.ltb_spec (status_code r) 600) as [Hhi|Hhi]; cbn;
        (split; [split; [discriminate | congruence]
                |split; [split; [discriminate | intros [H _]; congruence]
                        |split; [intros [code H]; try discriminate H; lia
                                | intros [H _]; try lia; eauto]]]).
Qed.

Lemma register_user_responses_witness :
  fst (run (register_user default_api "Naam" "a@b.nl" "rol" "12345678" "")
           (fun _ => Answer {| status_code := 401; text := ""; decoded := None |})) =
  Raise (RegistrationError "Wachtwoord is verplicht.").
Proof.
  destruct (register_user_responses default_api "Naam" "a@b.nl" "rol" "12345678" ""
              (fun _ => Answer {| status_code := 401; text := ""; decoded := None |})
              {| status_code := 401; text := ""; decoded := None |})
    as (H401 & _); [simpl; lia | reflexivity |].
  apply H401. reflexivity.
Defined.

(** X10. On a 200 response with a JSON object, [get_user_info] returns
    [data] exactly when [status] equals [True] (a truthy text is not
    enough) and [data] is there; it raises [ValueError] with the message
    exactly when [status] does not equal [True] and [message] is there; the
    only other outcomes are [KeyError] for the missing [data] or
    [message]. *)
Theorem get_user_info_served_iff (self : KennisHubAPI) (token : string)
    (net : transport) (r : response) (d : gmap string pyval) :
  net (user_details_request self token) = Answer r ->
  status_code r = 200%Z -> decoded r = Some (PDict d) ->
  (forall v, fst (run (get_user_info self token) net) = Return (Served v) <->
             eq_true (default PNone (d !! "status")) = true /\ d !! "data" = Some v) /\
  (forall m, fst (run (get_user_info self token) net) = Return (Refused m) <->
             eq_true (default PNone (d !! "status")) = false /\
             d !! "message" = Some m) /\
  (forall e, fst (run (get_user_info self token) net) = Raise e ->
             e = KeyError "data" \/ e = KeyError "message").
Proof.
  intros Hnet H200 Hd. unfold get_user_info. answered Hnet.
  rewrite H200, Hd. cbn.
  destruct (eq_true (default PNone (d !! "status"))); cbn.
  - destruct (d !! "data") as [x|]; cbn; repeat split;
      try (intros [= <-]; auto); try discriminate;
      try (intros [_ [= <-]]; reflexivity); try (intros [H _]; discriminate H);
      intros; intuition congruence.
  - destruct (d !! "message") as [x|]; cbn; repeat split;
      try (intros [= <-]; auto); try discriminate;
      try (intros [_ [= <-]]; reflexivity); try (intros [H _]; discriminate H);
      intros; intuition congruence.
Qed.

Lemma get_user_info_served_iff_witness :
  let d : gmap string pyval :=
    list_to_map [("status", PStr "ok"); ("data", PInt 1); ("message", PStr "nee")] in
  fst (run (get_user_info default_api "token")
           (fun _ => Answer {| status_code := 200; text := "";
                               decoded := Some (PDict d) |})) =
  Return (Refused (PStr "nee")).
Proof.
  intros d.
  destruct (get_user_info_served_iff default_api "token"
              (fun _ => Answer {| status_code := 200; text := "";
                                  decoded := Some (PDict d) |})
              _ d eq_refl eq_refl eq_refl) as (_ & Hrefused & _).
  apply Hrefused. split; vm_compute; reflexivity.
Defined.

(** X11. On a 200 response with a JSON object, [get_profile] returns
    [data] exactly when [status] is present and truthy and [data] is there,
    raises [ValueError] with the message exactly when [status] is present
    and falsy and [message] is there, and raises [KeyError] for a missing
    [status]. *)
Theorem get_profile_served_iff (self : KennisHubAPI) (token input_name : string)
    (net : transport) (r : response) (d : gmap string pyval) :
  net (profile_request self token input_name) = Answer r ->
  status_code r = 200%Z -> decoded r = Some (PDict d) ->
  (forall v, fst (run (get_profile self token input_name) net) = Return (Served v) <->
             exists st, d !! "status" = Some st /\ truthy st = true /\
                        d !! "data" = Some v) /\
  (forall m, fst (run (get_profile self token input_name) net) = Return (Refused m) <->
             exists st, d !! "status" = Some st /\ truthy st = false /\
                        d !! "message" = Some m) /\
  (d !! "status" = None ->
   fst (run (get_profile self token input_name) net) = Raise (KeyError "status")).
Proof.
  intros Hnet H200 Hd. unfold get_profile. answered Hnet.
  rewrite H200, Hd. cbn.
  destruct (d !! "status") as [st|]; cbn.
  - destruct (truthy st) eqn:Ht; cbn.
    + destruct (d !! "data") as [x|]; cbn; repeat split;
        try discriminate;
        try (intros [= <-]; eauto);
        try (intros (st' & [= <-] & H1 & H2); congruence).
    + destruct (d !! "message") as [x|]; cbn; repeat split;
        try discriminate;
        try (intros [= <-]; eauto);
        try (intros (st' & [= <-] & H1 & H2); congruence).
  - repeat split; try discriminate; intros (st' & H & _); discriminate H.
Qed.

Lemma get_profile_served_iff_witness :
  let d : gmap string pyval :=
    list_to_map [("status", PStr "ok"); ("data", PInt 1); ("message", PStr "nee")] in
  fst (run (get_profile default_api "token" "Jan Jansen")
           (fun _ => Answer {| status_code := 200; text := "";
                               decoded := Some (PDict d) |})) =
  Return (Served (PInt 1)).
Proof.
  intros d.
  destruct (get_profile_served_iff default_api "token" "Jan Jansen"
              (fun _ => Answer {| status_code := 200; text := "";
                                  decoded := Some (PDict d) |})
              _ d eq_refl eq_refl eq_refl) as (Hserved & _).
  apply Hserved. exists (PStr "ok"). repeat split; vm_compute; reflexivity.
Defined.

(** X12. [create_topic] validates before it sends: with an empty title, an
    empty description or a description over 280 characters it raises
    [ValueError] and no request goes out; otherwise exactly its one request
    goes out. *)
Theorem create_topic_validates_first (self : KennisHubAPI)
    (token title description : string) (net : transport) :
  (title = "" \/ description = "" \/ 280 < String.length description ->
   exists msg, run (create_topic self token title description) net =
               (Raise (ValueError msg), [])) /\
  (title <> "" -> description <> "" -> String.length description <= 280 ->
   snd (run (create_topic self token title description) net) =
   [topics_create_request self token title description]).
Proof.
  unfold create_topic, validate_title_and_description. cbn [truthy].
  rewrite !negb_involutive. split.
  - intros H.
    destruct (String.eqb_spec title ""); [eexists; reflexivity|].
    destruct (String.eqb_spec description ""); [eexists; reflexivity|].
    destruct (Nat.ltb_spec 280 (String.length description)); [eexists; reflexivity|].
    exfalso. intuition lia.
  - intros Ht Hd Hlen.
    destruct (String.eqb_spec title ""); [congruence|].
    destruct (String.eqb_spec description ""); [congruence|].
    destruct (Nat.ltb_spec 280 (String.length description)); [lia|].
    unfold run, mbind, io_bind, lift, send, mret, io_ret.
    destruct (net _) as [r|]; [|reflexivity].
    destruct (status_code r =? 200)%Z.
    + destruct (json r) as [body|]; [|reflexivity].
      destruct (getitem body "status") as [st|]; [|reflexivity].
      destruct (truthy st).
      * destruct (getitem body "data"); reflexivity.
      * destruct (getitem body "message"); reflexivity.
    + destruct (raise_for_status r) as [[]|]; reflexivity.
Qed.

Lemma create_topic_validates_first_witness :
  (exists msg, run (create_topic default_api "token" "" "Beschrijving")
                   (fun _ => Failure "offline") = (Raise (ValueError msg), [])) /\
  snd (run (create_topic default_api "token" "Titel" "Beschrijving")
           (fun _ => Failure "offline")) =
  [topics_create_request default_api "token" "Titel" "Beschrijving"].
Proof.
  split.
  - apply (create_topic_validates_first default_api "token" "" "Beschrijving").
    left. reflexivity.
  - apply (create_topic_validates_first default_api "token" "Titel" "Beschrijving");
      [discriminate | discriminate | simpl; lia].
Defined.

(** ** What every operation does with the network *)

Ltac split_matches :=
  repeat match goal with
         | |- context [match ?x with _ => _ end] => destruct x
         end.

Ltac one_request :=
  unfold run, mbind, io_bind, lift, send, raise, lift, mret, io_ret;
  split_matches; reflexivity.

(** X13. Every operation without a validation step issues exactly one
    request, whatever the remote side answers and also when the call
    fails: nothing is retried and nothing is skipped. *)
Theorem one_request_each (self : KennisHubAPI) (net : transport)
    (email password token input sort_by sort_order hash_value expires signature : string)
    (id : Z) :
  snd (run (login_user self email password) net) =
    [login_request self email password] /\
  snd (run (reset_password self email) net) = [reset_password_request self email] /\
  snd (run (verify_email self id hash_value expires signature) net) =
    [verify_email_request self id hash_value expires signature] /\
  snd (run (get_user_info self token) net) = [user_details_request self token] /\
  snd (run (follow_topic self token id) net) = [follow_topic_request self token id] /\
  snd (run (get_topics_list self token sort_order) net) =
    [topics_list_request self token sort_order] /\
  snd (run (get_profile self token input) net) = [profile_request self token input] /\
  snd (run (forgot_password self email) net) = [forgot_password_request self email] /\
  snd (run (get_topics_replies self token input sort_by sort_order) net) =
    [posts_list_request self token input sort_by sort_order].
Proof.
  repeat split.
  - unfold login_user. one_request.
  - unfold reset_password. one_request.
  - unfold verify_email. one_request.
  - unfold get_user_info. one_request.
  - unfold follow_topic. one_request.
  - unfold get_topics_list. one_request.
  - unfold get_profile. one_request.
  - unfold forgot_password. one_request.
  - unfold get_topics_replies. one_request.
Qed.

Lemma for_each_raise {A B : Type} (f : A -> result B) (xs : list A) (e : exn) :
  for_each f xs = Raise e -> exists x, In x xs /\ f x = Raise e.
Proof.
  induction xs as [|x xs IH]; cbn [for_each]; [discriminate|].
  unfold mbind, result_bind. destruct (f x) as [y|e'] eqn:Hx; cbn [Py.bind].
  - destruct (for_each f xs) as [ys|e'']; cbn [Py.bind]; [discriminate|].
    intros [= <-]. destruct (IH eq_refl) as (x' & Hin & Hx'). exists x'. split; [now right | assumption].
  - intros [= <-]. exists x. split; [now left | assumption].
Qed.

Lemma topics_info_raise (v : pyval) (e : exn) :
  topics_info v = Raise e -> e = AttributeError /\ is_record v = false.
Proof.
  destruct v as [| | | | | |p]; try (cbn; intros [= <-]; split; reflexivity).
  unfold topics_info, is_record, get. cbn [mbind result_bind Py.bind].
  destruct (p !! "user") as [[]|]; cbn; intros H; try discriminate H;
    injection H as <-; split; reflexivity.
Qed.

Lemma post_info_raise (v : pyval) (e : exn) :
  post_info v = Raise e -> e = AttributeError /\ is_record v = false.
Proof.
  destruct v as [| | | | | |p]; try (cbn; intros [= <-]; split; reflexivity).
  unfold post_info, is_record, get. cbn [mbind result_bind Py.bind].
  destruct (p !! "user") as [[]|]; cbn; intros H; try discriminate H;
    injection H as <-; split; reflexivity.
Qed.

(** The exceptions behind a failed projection of a decoded body. *)
Lemma projection_raise (f : pyval -> result pyval) (r : response) (e : exn) :
  (forall v e', f v = Raise e' -> e' = AttributeError /\ is_record v = false) ->
  (body ← json r;
   data ← get body "data" (PList []);
   items ← iter data;
   selected_info ← for_each f items;
   Return (PList selected_info)) = Raise e ->
  e = JSONDecodeError \/ e = AttributeError \/ e = TypeError.
Proof.
  intros Hf. unfold json, mbind, result_bind.
  destruct (decoded r) as [body|]; cbn [Py.bind]; [|intros [= <-]; auto].
  destruct body as [| | | | | |d]; cbn [Py.bind get]; try (intros [= <-]; auto).
  destruct (default (PList []) (d !! "data")) as [| | | |s|l|d']; cbn [Py.bind iter];
    try (intros [= <-]; auto);
    match goal with
    | |- context [for_each f ?xs] =>
        destruct (for_each f xs) as [ys|e'] eqn:Hfe; cbn [Py.bind]; [discriminate|];
        intros [= <-]; apply for_each_raise in Hfe as (x & _ & Hx);
        apply Hf in Hx as [-> _]; auto
    end.
Qed.

(** X14. [verify_email], [follow_topic], [forgot_password],
    [send_reply_comment] and [get_topics_replies] never raise [HTTPError]:
    none of them asks the response for its status error. *)
Theorem no_http_error_without_status_check (self : KennisHubAPI) (net : transport)
    (email token message input sort_by sort_order hash_value expires signature : string)
    (id code : Z) :
  fst (run (verify_email self id hash_value expires signature) net) <>
    Raise (HTTPError code) /\
  fst (run (follow_topic self token id) net) <> Raise (HTTPError code) /\
  fst (run (forgot_password self email) net) <> Raise (HTTPError code) /\
  fst (run (send_reply_comment self token message id) net) <> Raise (HTTPError code) /\
  fst (run (get_topics_replies self token input sort_by sort_order) net) <>
    Raise (HTTPError code).
Proof.
  repeat split.
  - unfold verify_email, run, mbind, io_bind, lift, send, mret, io_ret, json.
    destruct (net _) as [r|]; [|discriminate].
    destruct (negb _); [discriminate|]. destruct (decoded r); discriminate.
  - unfold follow_topic, run, mbind, io_bind, lift, send, mret, io_ret, json.
    destruct (net _) as [r|]; [|discriminate].
    destruct (String.eqb _ _); [|discriminate]. destruct (decoded r); discriminate.
  - unfold forgot_password, run, mbind, io_bind, lift, send, mret, io_ret, json.
    destruct (net _) as [r|]; [|discriminate].
    destruct (String.eqb _ _); [|discriminate]. destruct (decoded r); discriminate.
  - unfold send_reply_comment, run, mbind, io_bind, lift, send, mret, io_ret, json.
    destruct (net _) as [r|]; [|discriminate].
    destruct (String.eqb _ _); [|discriminate]. destruct (decoded r); discriminate.
  - destruct (net (posts_list_request self token input sort_by sort_order))
      as [r|detail] eqn:Hnet.
    + rewrite (get_topics_replies_run _ _ _ _ _ _ _ Hnet). cbn [fst]. intros H.
      apply (projection_raise post_info r _ post_info_raise) in H as [H|[H|H]];
        discriminate H.
    + unfold get_topics_replies. rewrite (run_send_failure _ _ _ _ Hnet). discriminate.
Qed.

(** X15. Two names with the same slug give the same call: [get_profile]
    and [get_topics_replies] send the same request and end the same way. *)
Theorem same_slug_same_call (self : KennisHubAPI) (net : transport)
    (token a b sort_by sort_order : string) :
  input2slug a = input2slug b ->
  run (get_profile self token a) net = run (get_profile self token b) net /\
  run (get_topics_replies self token a sort_by sort_order) net =
  run (get_topics_replies self token b sort_by sort_order) net.
Proof.
  intros H. unfold get_profile, get_topics_replies, profile_request, posts_list_request.
  now rewrite H.
Qed.

Lemma same_slug_same_call_witness :
  run (get_profile default_api "token" "Jan Jansen") (fun _ => Failure "offline") =
  run (get_profile default_api "token" "jan-jansen") (fun _ => Failure "offline").
Proof.
  apply (same_slug_same_call default_api (fun _ => Failure "offline")
           "token" "Jan Jansen" "jan-jansen" "created_at" "desc").
  reflexivity.
Defined.

(** X16. On an error response (status 400 to 599) whose body is a JSON
    object without [data], [get_topics_replies] returns the empty list,
    where [get_topics_list] raises [HTTPError]. *)
Theorem get_topics_replies_hides_error_status (self : KennisHubAPI) (net : transport)
    (token input sort_by sort_order : string) (r : response)
    (d : gmap string pyval) :
  net (topics_list_request self token sort_order) = Answer r ->
  net (posts_list_request self token input sort_by sort_order) = Answer r ->
  (400 <= status_code r < 600)%Z ->
  decoded r = Some (PDict d) -> d !! "data" = None ->
  fst (run (get_topics_replies self token input sort_by sort_order) net) =
    Return (PList []) /\
  fst (run (get_topics_list self token sort_order) net) =
    Raise (HTTPError (status_code r)).
Proof.
  intros Hlist Hposts Herr Hbody Hdata.
  rewrite (get_topics_replies_run _ _ _ _ _ _ _ Hposts).
  rewrite (get_topics_list_run _ _ _ _ _ Hlist).
  rewrite (raise_for_status_error _ Herr). unfold json. rewrite Hbody.
  cbn [fst mbind result_bind Py.bind get]. rewrite Hdata. split; reflexivity.
Qed.

Lemma get_topics_replies_hides_error_status_witness :
  let net := (fun _ => Answer {| status_code := 401; text := "";
                                 decoded := Some (PDict (list_to_map
                                   [("message", PStr "Unauthenticated.")])) |})
             : transport in
  fst (run (get_topics_replies default_api "token" "Topic" "created_at" "desc") net) =
    Return (PList []) /\
  fst (run (get_topics_list default_api "token" "desc") net) = Raise (HTTPError 401).
Proof.
  intros net.
  apply (get_topics_replies_hides_error_status default_api net "token" "Topic"
           "created_at" "desc" _ (list_to_map [("message", PStr "Unauthenticated.")])
           eq_refl eq_refl); [simpl; lia | reflexivity | reflexivity].
Defined.

(** ** When the projections succeed *)

Lemma for_each_return_iff {A B : Type} (f : A -> result B) (xs : list A) :
  (exists ys, for_each f xs = Return ys) <->
  Forall (fun x => exists y, f x = Return y) xs.
Proof.
  induction xs as [|x xs IH]; cbn [for_each].
  - split; [constructor | eauto].
  - unfold mbind, result_bind. split.
    + intros [ys H]. destruct (f x) as [y|] eqn:Hx; cbn [Py.bind] in H; [|discriminate].
      destruct (for_each f xs) as [ys'|]; cbn [Py.bind] in H; [|discriminate].
      constructor; [eauto | apply IH; eauto].
    + intros H. inversion H as [|? ? [y Hy] Hxs]; subst.
      apply IH in Hxs as [ys Hys]. rewrite Hy, Hys. cbn. eauto.
Qed.

Lemma topics_info_return_iff (v : pyval) :
  (exists out, topics_info v = Return out) <-> is_record v = true.
Proof.
  split.
  - intros [out H]. destruct (is_record v) eqn:E; [reflexivity|].
    destruct v as [| | | | | |p]; try discriminate H.
    unfold topics_info, is_record, get in *. cbn [mbind result_bind Py.bind] in H.
    destruct (p !! "user") as [[]|]; try discriminate E; discriminate H.
  - intros H. destruct (topics_info_record v H) as (out & Hout & _). eauto.
Qed.

Lemma post_info_return_iff (v : pyval) :
  (exists out, post_info v = Return out) <-> is_record v = true.
Proof.
  split.
  - intros [out H]. destruct (is_record v) eqn:E; [reflexivity|].
    destruct v as [| | | | | |p]; try discriminate H.
    unfold post_info, is_record, get in *. cbn [mbind result_bind Py.bind] in H.
    destruct (p !! "user") as [[]|]; try discriminate E; discriminate H.
  - intros H. destruct (post_info_record v H) as (out & Hout & _). eauto.
Qed.

Lemma for_each_records (f : pyval -> result pyval) (records : list pyval) :
  (forall v, (exists out, f v = Return out) <-> is_record v = true) ->
  (forall v e, f v = Raise e -> e = AttributeError /\ is_record v = false) ->
  ((exists out, (selected_info ← for_each f records; Return (PList selected_info)) =
                Return out) <->
   Forall (fun v => is_record v = true) records) /\
  (~ Forall (fun v => is_record v = true) records ->
   (selected_info ← for_each f records; Return (PList selected_info)) =
   Raise AttributeError).
Proof.
  intros Hret Hraise.
  assert (Hiff : (exists ys, for_each f records = Return ys) <->
                 Forall (fun v => is_record v = true) records).
  { rewrite for_each_return_iff. apply Forall_iff. intros v. apply Hret. }
  unfold mbind, result_bind. split; [split|].
  - intros [out H]. apply Hiff.
    destruct (for_each f records) as [ys|]; [eauto | discriminate H].
  - intros H. apply Hiff in H as [ys ->]. cbn. eauto.
  - intros Hnot. destruct (for_each f records) as [ys|e] eqn:Hfe.
    + exfalso. apply Hnot, Hiff. eauto.
    + apply for_each_raise in Hfe as (x & _ & Hx).
      apply Hraise in Hx as [-> _]. reflexivity.
Qed.

(** X17. When [data] is a list, the two projections return exactly when
    every element is a JSON object whose [user], if present, is a JSON
    object; otherwise they raise [AttributeError]. *)
Theorem projections_succeed_iff_records (self : KennisHubAPI) (net : transport)
    (token input sort_by sort_order : string) (r : response)
    (d : gmap string pyval) (records : list pyval) :
  net (topics_list_request self token sort_order) = Answer r ->
  net (posts_list_request self token input sort_by sort_order) = Answer r ->
  ~ (400 <= status_code r < 600)%Z ->
  decoded r = Some (PDict d) -> d !! "data" = Some (PList records) ->
  ((exists out, fst (run (get_topics_list self token sort_order) net) = Return out) <->
   Forall (fun v => is_record v = true) records) /\
  ((exists out, fst (run (get_topics_replies self token input sort_by sort_order) net) =
                Return out) <->
   Forall (fun v => is_record v = true) records) /\
  (~ Forall (fun v => is_record v = true) records ->
   fst (run (get_topics_list self token sort_order) net) = Raise AttributeError /\
   fst (run (get_topics_replies self token input sort_by sort_order) net) =
     Raise AttributeError).
Proof.
  intros Hlist Hposts Hok Hbody Hdata.
  rewrite (get_topics_list_run _ _ _ _ _ Hlist).
  rewrite (get_topics_replies_run _ _ _ _ _ _ _ Hposts).
  rewrite (raise_for_status_pass _ Hok). unfold json. rewrite Hbody.
  cbn [fst mbind result_bind Py.bind get]. rewrite Hdata. cbn [default from_option id iter Py.bind].
  destruct (for_each_records topics_info records topics_info_return_iff topics_info_raise)
    as [Ht1 Ht2].
  destruct (for_each_records post_info records post_info_return_iff post_info_raise)
    as [Hp1 Hp2].
  unfold mbind, result_bind in Ht1, Ht2, Hp1, Hp2.
  split; [exact Ht1 | split; [exact Hp1 | auto]].
Qed.

Lemma projections_succeed_iff_records_witness :
  let records := [PDict ∅; PStr "topic"] in
  let net := (fun _ => Answer {| status_code := 200; text := "";
                                 decoded := Some (PDict (list_to_map
                                   [("data", PList records)])) |}) : transport in
  fst (run (get_topics_list default_api "token" "desc") net) = Raise AttributeError /\
  fst (run (get_topics_replies default_api "token" "Topic" "created_at" "desc") net) =
    Raise AttributeError.
Proof.
  intros records net.
  destruct (projections_succeed_iff_records default_api net "token" "Topic"
              "created_at" "desc" _ (list_to_map [("data", PList records)]) records
              eq_refl eq_refl) as (_ & _ & H); [simpl; lia | reflexivity | reflexivity |].
  apply H. intros Hall. inversion Hall as [|? ? _ Hrest]; subst.
  inversion Hrest as [|? ? Hbad _]; subst. discriminate Hbad.
Defined.

(** X18. Every record a projection returns has the same keys: the ten of
    a topic, the eleven of a post, whatever the remote record holds. *)
Theorem projection_keys (v out : pyval) :
  (topics_info v = Return out ->
   exists q : gmap string pyval,
     out = PDict q /\
     dom q = list_to_set (map fst (topic_fields ++ topic_user_fields))) /\
  (post_info v = Return out ->
   exists q : gmap string pyval,
     out = PDict q /\
     dom q = list_to_set (map fst (post_fields ++ post_user_fields))).
Proof.
  split; intros H.
  - assert (Hrec : is_record v = true) by (apply topics_info_return_iff; eauto).
    destruct v as [| | | | | |p]; try discriminate Hrec.
    rewrite (topics_info_record_eq p Hrec) in H. injection H as <-.
    eexists. split; [reflexivity|]. rewrite !dom_insert_L, dom_empty_L. reflexivity.
  - assert (Hrec : is_record v = true) by (apply post_info_return_iff; eauto).
    destruct v as [| | | | | |p]; try discriminate Hrec.
    rewrite (post_info_record_eq p Hrec) in H. injection H as <-.
    eexists. split; [reflexivity|]. rewrite !dom_insert_L, dom_empty_L. reflexivity.
Qed.

Lemma projection_keys_witness :
  exists q : gmap string pyval,
    PDict (list_to_map
      [("topic_id", PNone); ("user_id", PNone); ("title", PNone);
       ("topic_slug", PNone); ("description", PNone); ("topic_created_at", PNone);
       ("topic_updated_at", PNone); ("topic_human_readable_created_at", PNone);
       ("user_name", PNone); ("user_slug", PNone)]) = PDict q /\
    dom q = list_to_set (map fst (topic_fields ++ topic_user_fields)).
Proof.
  apply (proj1 (projection_keys (PDict ∅) _)). vm_compute. reflexivity.
Defined.

(** ** The mark in the message of [reset_password] *)

(** X19. For a text message on a 200 response with a falsy status,
    [reset_password] raises "Invalid email address" exactly when the mark
    stands somewhere in the message, with any text before and after it, and
    "Unknown error" exactly when it does not. *)
Theorem reset_password_mark_anywhere (self : KennisHubAPI) (email : string)
    (net : transport) (r : response) (d : gmap string pyval) (s : string) :
  net (reset_password_request self email) = Answer r ->
  status_code r = 200%Z -> decoded r = Some (PDict d) ->
  truthy (default PNone (d !! "status")) = false ->
  d !! "message" = Some (PStr s) ->
  (fst (run (reset_password self email) net) =
     Raise (PasswordError "Invalid email address") <->
   exists pre post, s = pre ++ invalid_email_mark ++ post) /\
  (fst (run (reset_password self email) net) = Raise (PasswordError "Unknown error") <->
   ~ exists pre post, s = pre ++ invalid_email_mark ++ post).
Proof.
  intros Hnet H200 Hd Hst Hm. rewrite <- contains_split.
  unfold reset_password. rewrite (run_send _ _ _ _ Hnet).
  unfold mbind, io_bind, lift, raise, lift, mret, io_ret, json.
  rewrite H200, Hd. cbn. rewrite Hst. cbn. rewrite Hm. cbn.
  unfold invalid_email_mark.
  destruct (String.eqb_spec s "") as [->|Hne]; cbn.
  - split; split; try discriminate; try reflexivity;
      try (intros H; now contradiction H).
  - destruct (contains "The selected E-mailadres is invalid." s); cbn;
      split; split; try discriminate; try reflexivity; try congruence;
      try (intros H; now contradiction H).
Qed.

Lemma reset_password_mark_anywhere_witness :
  let d : gmap string pyval :=
    list_to_map [("status", PBool false);
                 ("message", PStr "Fout: The selected E-mailadres is invalid. (422)")] in
  fst (run (reset_password default_api "a@b.nl")
           (fun _ => Answer {| status_code := 200; text := "";
                               decoded := Some (PDict d) |})) =
  Raise (PasswordError "Invalid email address").
Proof.
  intros d.
  destruct (reset_password_mark_anywhere default_api "a@b.nl"
              (fun _ => Answer {| status_code := 200; text := "";
                                  decoded := Some (PDict d) |})
              _ d "Fout: The selected E-mailadres is invalid. (422)"
              eq_refl eq_refl eq_refl) as [H _];
    [vm_compute; reflexivity | vm_compute; reflexivity |].
  apply H. exists "Fout: ", " (422)". reflexivity.
Defined.

(** ** A 200 response whose body is no JSON object *)

(** X20. On a 200 response whose decoded body is no JSON object (a list, a
    text, a number, null), [login_user], [reset_password] and
    [get_user_info] raise [AttributeError], while [get_profile] and
    [create_topic] raise [TypeError]. *)
Theorem body_not_an_object (self : KennisHubAPI) (net : transport) (r : response)
    (body : pyval) (email password token input title description : string) :
  (forall rq, net rq = Answer r) ->
  status_code r = 200%Z -> decoded r = Some body ->
  (forall d, body <> PDict d) ->
  fst (run (login_user self email password) net) = Raise AttributeError /\
  fst (run (reset_password self email) net) = Raise AttributeError /\
  fst (run (get_user_info self token) net) = Raise AttributeError /\
  fst (run (get_profile self token input) net) = Raise TypeError /\
  (validate_title_and_description title description = Return tt ->
   fst (run (create_topic self token title description) net) = Raise TypeError).
Proof.
  intros Hnet H200 Hbody Hnot.
  unfold login_user, reset_password, get_user_info, get_profile, create_topic.
  repeat split.
  1-4: rewrite (run_send _ _ _ _ (Hnet _));
       unfold mbind, io_bind, lift, json; rewrite H200, Hbody; cbn;
       destruct body; try reflexivity; now contradiction (Hnot d).
  intros ->. unfold run, mbind, io_bind, lift, send, json.
  rewrite (Hnet _), H200, Hbody. cbn.
  destruct body; try reflexivity; now contradiction (Hnot d).
Qed.

Lemma body_not_an_object_witness :
  let net := (fun _ => Answer {| status_code := 200; text := "[]";
                                 decoded := Some (PList []) |}) : transport in
  fst (run (login_user default_api "a@b.nl" "geheim") net) = Raise AttributeError /\
  fst (run (get_profile default_api "token" "Jan") net) = Raise TypeError.
Proof.
  intros net.
  destruct (body_not_an_object default_api net _ (PList []) "a@b.nl" "geheim" "token"
              "Jan" "Titel" "Beschrijving" (fun _ => eq_refl) eq_refl eq_refl)
    as (Hlogin & _ & _ & Hprofile & _); [discriminate|].
  split; assumption.
Defined.

Lemma input2slug_fixed_point_witness :
  input2slug "already-slug" = "already-slug".
Proof.
  apply input2slug_fixed_point. intros c Hc.
  cbn [occurs] in Hc.
  repeat (apply orb_true_iff in Hc as [Hc|Hc];
          [apply Ascii.eqb_eq in Hc; subst c; split; [discriminate | reflexivity]|]).
  discriminate Hc.
Defined.

(** ** The slug over all code points *)

Section UnicodeSlug.

Variable lower_beyond : N -> list N.
Variables cased case_ignorable : N -> bool.

Local Abbreviation lower_all := (Unicode.lower lower_beyond cased case_ignorable).
Local Abbreviation slug := (Unicode.input2slug lower_beyond cased case_ignorable).
Local Abbreviation fixed := (Unicode.fixed lower_beyond).
Local Abbreviation hyphenate :=
  (map (fun c => if (c =? Unicode.space)%N then Unicode.hyphen else c)).

Lemma replace_code (a b : N) (s : list N) :
  Unicode.replace [a] [b] s = map (fun c => if (c =? a)%N then b else c) s.
Proof.
  unfold Unicode.replace.
  induction s as [|c s IH]; [reflexivity|].
  cbn [Unicode.replace_from Unicode.starts_with List.length Nat.sub map].
  rewrite (N.eqb_sym a c). destruct (c =? a)%N.
  - destruct s; cbn [andb app]; rewrite <- IH; reflexivity.
  - cbn [andb]. now rewrite <- IH.
Qed.

Lemma input2slug_hyphenate (s : list N) : slug s = hyphenate (lower_all s).
Proof. unfold Unicode.input2slug. apply replace_code. Qed.

Lemma lower_full_below (c : N) :
  (c < 256)%N ->
  c <> Unicode.capital_sigma /\
  Unicode.lower_full lower_beyond c = [N_of_ascii (lower_char (ascii_of_N c))].
Proof.
  intros H. split.
  - unfold Unicode.capital_sigma. lia.
  - unfold Unicode.lower_full. apply N.ltb_lt in H. now rewrite H.
Qed.

Lemma fixed_lower_char (a : ascii) : fixed (N_of_ascii (lower_char a)).
Proof.
  destruct (lower_full_below (N_of_ascii (lower_char a)) (N_ascii_bounded _)) as [Hs Hl].
  split; [assumption|]. rewrite Hl, ascii_N_embedding, lower_char_idem. reflexivity.
Qed.

Lemma fixed_hyphen : fixed Unicode.hyphen.
Proof. exact (fixed_lower_char "-"). Qed.

Lemma lower_from_fixed (s before : list N) :
  Forall fixed s -> Unicode.lower_from lower_beyond cased case_ignorable before s = s.
Proof.
  revert before. induction s as [|c s IH]; intros before H; [reflexivity|].
  inversion H as [|? ? [Hs Hl] Hrest]; subst. cbn [Unicode.lower_from].
  apply N.eqb_neq in Hs. rewrite Hs, Hl, IH by assumption. reflexivity.
Qed.

Hypothesis table_stable : Unicode.stable lower_beyond.

Lemma fixed_sigma (before after : list N) :
  fixed (Unicode.handle_capital_sigma cased case_ignorable before after).
Proof.
  destruct table_stable as (_ & Hfinal & Hsmall).
  unfold Unicode.handle_capital_sigma.
  match goal with |- fixed (if ?b then _ else _) => destruct b end;
    (split; [discriminate|]); unfold Unicode.lower_full; cbn; assumption.
Qed.

Lemma fixed_lower_full (c d : N) :
  In d (Unicode.lower_full lower_beyond c) -> fixed d.
Proof.
  unfold Unicode.lower_full. destruct (N.ltb_spec c 256) as [Hlt|Hge].
  - intros [<-|[]]. apply fixed_lower_char.
  - destruct table_stable as (Hbeyond & _). intros Hd. exact (Hbeyond c d Hge Hd).
Qed.

Lemma lower_from_all_fixed (s before : list N) :
  Forall fixed (Unicode.lower_from lower_beyond cased case_ignorable before s).
Proof.
  revert before. induction s as [|c s IH]; intros before; [constructor|].
  cbn [Unicode.lower_from]. apply Forall_app. split; [|apply IH].
  destruct (c =? Unicode.capital_sigma)%N.
  - constructor; [apply fixed_sigma | constructor].
  - apply List.Forall_forall. intros d Hd. now apply (fixed_lower_full c).
Qed.

Lemma slug_all_fixed (s : list N) :
  Forall (fun c => c <> Unicode.space /\ fixed c) (slug s).
Proof.
  rewrite input2slug_hyphenate. apply Forall_map.
  eapply Forall_impl; [apply (lower_from_all_fixed s [])|].
  intros c Hc. cbn beta. destruct (N.eqb_spec c Unicode.space) as [->|Hne].
  - split; [discriminate | apply fixed_hyphen].
  - split; assumption.
Qed.

Lemma slug_of_fixed (s : list N) :
  Forall (fun c => c <> Unicode.space /\ fixed c) s -> slug s = s.
Proof.
  intros H. rewrite input2slug_hyphenate. unfold Unicode.lower.
  rewrite lower_from_fixed by (eapply Forall_impl; [exact H | now intros c [_ Hc]]).
  induction H as [|c s [Hsp _] _ IH]; [reflexivity|].
  cbn [map]. apply N.eqb_neq in Hsp. now rewrite Hsp, IH.
Qed.

(** C9. For every text, of whatever code points: slug conversion is
    lower-casing followed by a hyphen for every space, and nothing else; it
    sends "Hello World" to "hello-world" and "ALREADY-slug" to
    "already-slug"; and converting a slug again gives the same slug.  The
    hypothesis on the table beyond 256 is what the Unicode data give: a
    lower-cased code point is lower case. *)
Theorem input2slug_over_all_code_points (s : list N) :
  slug s = Unicode.spec_slug lower_beyond cased case_ignorable s /\
  slug (codes "Hello World") = codes "hello-world" /\
  slug (codes "ALREADY-slug") = codes "already-slug" /\
  slug (slug s) = slug s.
Proof.
  split; [apply input2slug_hyphenate|].
  split; [reflexivity|]. split; [reflexivity|].
  apply slug_of_fixed, slug_all_fixed.
Qed.

(** X6. A slug holds no space, no capital sigma and no code point that
    [str.lower] would still change, for every input text. *)
Theorem slug_code_points_are_lower_case (s : list N) (c : N) :
  In c (slug s) ->
  c <> Unicode.space /\ c <> Unicode.capital_sigma /\
  Unicode.lower_full lower_beyond c = [c].
Proof.
  intros Hin. pose proof (slug_all_fixed s) as H.
  rewrite List.Forall_forall in H. destruct (H c Hin) as (Hsp & Hsig & Hl). auto.
Qed.

(** X7. The texts that are their own slug are exactly those without a
    space, without a capital sigma and without a code point that
    [str.lower] changes. *)
Theorem slug_fixed_point_iff (s : list N) :
  slug s = s <->
  forall c, In c s ->
            c <> Unicode.space /\ c <> Unicode.capital_sigma /\
            Unicode.lower_full lower_beyond c = [c].
Proof.
  split.
  - intros E c Hin. rewrite <- E in Hin. pose proof (slug_all_fixed s) as H.
    rewrite List.Forall_forall in H. destruct (H c Hin) as (Hsp & Hsig & Hl). auto.
  - intros H. apply slug_of_fixed. apply List.Forall_forall. intros c Hin.
    destruct (H c Hin) as (Hsp & Hsig & Hl). repeat split; assumption.
Qed.

End UnicodeSlug.

Lemma codes_app (s1 s2 : string) : codes (s1 ++ s2) = (codes s1 ++ codes s2)%list.
Proof.
  induction s1 as [|a s1 IH]; [reflexivity|].
  change (String a s1 ++ s2) with (String a (s1 ++ s2)). cbn [codes]. now rewrite IH.
Qed.

Lemma lower_from_codes (lower_beyond : N -> list N) (cased case_ignorable : N -> bool)
    (s : string) (before : list N) :
  Unicode.lower_from lower_beyond cased case_ignorable before (codes s) =
  codes (lower s).
Proof.
  revert before. induction s as [|a s IH]; intros before; [reflexivity|].
  cbn [codes lower Unicode.lower_from].
  destruct (lower_full_below lower_beyond (N_of_ascii a) (N_ascii_bounded a)) as [Hs Hl].
  apply N.eqb_neq in Hs. rewrite Hs, Hl, ascii_N_embedding, IH. reflexivity.
Qed.

(** The two embeddings of [input2slug] agree on the texts of code points
    below 256, whatever the tables beyond are. *)
Theorem input2slug_agrees_below_256 (lower_beyond : N -> list N)
    (cased case_ignorable : N -> bool) (s : string) :
  Unicode.input2slug lower_beyond cased case_ignorable (codes s) = codes (input2slug s).
Proof.
  rewrite input2slug_hyphenate, input2slug_spec_slug. unfold Unicode.lower.
  rewrite lower_from_codes.
  induction s as [|a s IH]; [reflexivity|].
  cbn [lower codes map spec_slug]. rewrite IH. f_equal.
  destruct (Ascii.eqb_spec (lower_char a) " ") as [->|Hne]; [reflexivity|].
  destruct (N.eqb_spec (N_of_ascii (lower_char a)) Unicode.space) as [E|_]; [|reflexivity].
  exfalso. apply Hne. rewrite <- (ascii_N_embedding (lower_char a)), E. reflexivity.
Qed.

Lemma sample_table_stable : Unicode.stable Unicode.sample_lower_beyond.
Proof.
  split; [|split; reflexivity].
  intros c d Hc. unfold Unicode.sample_lower_beyond.
  destruct (N.eqb_spec c Unicode.capital_sigma) as [->|Hsig].
  - intros [<-|[]]. split; [discriminate | reflexivity].
  - destruct (N.eqb_spec c 304) as [->|H304].
    + intros [<-|[<-|[]]]; (split; [discriminate | reflexivity]).
    + destruct (N.eqb_spec c 8490) as [->|H8490].
      * intros [<-|[]]. split; [discriminate | reflexivity].
      * intros [<-|[]]. split; [assumption|].
        unfold Unicode.lower_full, Unicode.sample_lower_beyond.
        apply N.ltb_ge in Hc. rewrite Hc.
        apply N.eqb_neq in Hsig, H304, H8490. now rewrite Hsig, H304, H8490.
Qed.

Lemma input2slug_over_all_code_points_witness :
  let slug := Unicode.input2slug Unicode.sample_lower_beyond Unicode.sample_cased
                Unicode.sample_case_ignorable in
  slug [304; 32; 65; 931]%N = [105; 775; 45; 97; 962]%N /\
  slug (slug [304; 32; 65; 931]%N) = slug [304; 32; 65; 931]%N.
Proof.
  intros slug. split; [reflexivity|].
  apply (input2slug_over_all_code_points Unicode.sample_lower_beyond Unicode.sample_cased
           Unicode.sample_case_ignorable sample_table_stable).
Defined.

Lemma slug_code_points_are_lower_case_witness :
  (775 <> Unicode.space /\ 775 <> Unicode.capital_sigma /\
   Unicode.lower_full Unicode.sample_lower_beyond 775 = [775])%N.
Proof.
  apply (slug_code_points_are_lower_case Unicode.sample_lower_beyond Unicode.sample_cased
           Unicode.sample_case_ignorable sample_table_stable [304; 32; 65; 931]%N).
  vm_compute. tauto.
Defined.

Lemma slug_fixed_point_iff_witness :
  Unicode.input2slug Unicode.sample_lower_beyond Unicode.sample_cased
    Unicode.sample_case_ignorable [105; 775; 45; 962]%N = [105; 775; 45; 962]%N.
Proof.
  apply (slug_fixed_point_iff Unicode.sample_lower_beyond Unicode.sample_cased
           Unicode.sample_case_ignorable sample_table_stable).
  intros c [<-|[<-|[<-|[<-|[]]]]]; repeat split; discriminate.
Defined.
